(** * The workspace transactor actor (workers/transactor/src/transactor.ts)

    A shallow embedding of the [Transactor] durable object: its session
    registry, the connection sockets it creates, the websocket handlers, the
    broadcast fan-out and the direct RPC bridge.

    The actor talks to collaborators that live outside the file (the session
    manager, the pipeline, the RPC codec, the websocket transport of the
    hosting runtime).  Each call to a collaborator is recorded in a trace, and
    what the collaborator answers is read from an environment [Env] whose
    stateful entries are functions of the trace so far, so that a theorem
    quantified over [Env] covers every behaviour of the collaborators.

    Handlers are embedded as atomic steps.  Every test-and-set of the actor's
    own fields in the source runs between two awaits, never across one.  A
    promise that a handler does not await is embedded by how it settles, and
    what runs once it has settled as an operation of its own. *)

From stdpp Require Import gmap strings list fin_maps pretty countable.
From Stdlib Require Import ZArith Ascii.

Local Open Scope string_scope.
Local Open Scope list_scope.
Local Set Warnings "-register-all".

(** ** Data model *)

(** JavaScript data that crosses the actor: documents, transactions, query
    results, response envelopes. *)
Inductive Value : Type :=
| VUndefined
| VNull
| VBool (b : bool)
| VNum (n : Z)
| VStr (s : string)
| VArr (items : list Value)
| VObj (fields : list (string * Value)).

(** A thrown JavaScript error, with [Error.prototype.toString]. *)
Record Err : Type := MkErr { err_name : string; err_message : string }.

Definition errString (e : Err) : string :=
  if String.eqb (err_name e) "" then err_message e
  else if String.eqb (err_message e) "" then err_name e
  else err_name e +:+ ": " +:+ err_message e.

Definition TypeError (m : string) : Err := MkErr "TypeError" m.
Definition Error (m : string) : Err := MkErr "Error" m.

(** The result of running a piece of code: a value, or a thrown error
    (for an async function: a resolved or a rejected promise). *)
Inductive Outcome (A : Type) : Type :=
| Ok (a : A)
| Throw (e : Err).
Arguments Ok {A} a.
Arguments Throw {A} e.

(** A frame on the websocket: text, held as its UTF-8 bytes, or binary. *)
Inductive Frame : Type :=
| Text (s : string)
| Binary (bytes : string).

(** [Buffer.from(message)] *)
Definition Buffer_from (f : Frame) : string :=
  match f with Text s => s | Binary b => b end.

(** [s.length] of the JavaScript string whose UTF-8 bytes are [s], that is
    its number of UTF-16 code units: one for a byte below 0x80 and for the
    lead byte of a two- or three-byte sequence, two (a surrogate pair) for
    the lead byte of a four-byte sequence, none for a continuation byte. *)
Definition utf16_units (c : ascii) : nat :=
  let n := nat_of_ascii c in
  if Nat.ltb n 128 then 1
  else if Nat.ltb n 192 then 0
  else if Nat.ltb n 240 then 1
  else 2.

Fixpoint js_length (s : string) : nat :=
  match s with
  | EmptyString => 0
  | String c rest => utf16_units c + js_length rest
  end.

(** [smsg.length]: the code units of a string, the bytes of a
    [Uint8Array]. *)
Definition frameLength (f : Frame) : nat :=
  match f with
  | Text s => js_length s
  | Binary bytes => String.length bytes
  end.

Inductive ReadyState : Type := CONNECTING | OPEN | CLOSING | CLOSED.

Definition ReadyState_eqb (a b : ReadyState) : bool :=
  match a, b with
  | CONNECTING, CONNECTING | OPEN, OPEN | CLOSING, CLOSING | CLOSED, CLOSED => true
  | _, _ => false
  end.

(** [Token] of server-token: the fields the actor reads. *)
Record TokenExtra : Type := { mode : Value; model : Value }.
Record Token : Type := {
  email : string;
  workspace_name : string;          (* token.workspace.name *)
  extra : option TokenExtra
}.

(** The [data] object of [handleSession]. *)
Record ClientData : Type := {
  remoteAddress : string;
  userAgent : string;
  language : string;
  cd_email : string;
  cd_mode : Value;
  cd_model : Value
}.

(** The upgrade request: its URL and the three headers that are read. *)
Record Request : Type := {
  url : string;
  CF_Connecting_IP : option string;
  user_agent : option string;
  accept_language : option string
}.

(** [new URL(...)]: the path and the [sessionId] query parameter. *)
Record URL : Type := { pathname : string; searchParams_sessionId : option string }.

Record Response : Type := { status : nat; webSocket : option nat }.

(** An RPC request, as [readRequest] returns it. *)
Record RpcRequest : Type := {
  method : string;
  params : list Value;
  id : Value;
  time : option Z
}.

(** [session.workspace.pipeline]: a pipeline, or a promise of one. *)
Inductive PipelineHandle : Type :=
| Resolved (pipeline : nat)
| Pending (settles : Outcome nat).

Record Session : Type := {
  sessionId : string;
  binaryMode : bool;
  user : string;                    (* getUser() *)
  workspace_pipeline : PipelineHandle
}.

(** A [ConnectionSocket] object.  [cs_ws] is the websocket a socket made by
    [createWebsocketClientSocket] writes to; it is [None] for the socket of
    [createDummyClientSocket].  The mutable [isClosed] flag lives in the
    actor's store, keyed by [cs_id], since the object is shared with the
    session manager. *)
Record ConnectionSocket : Type := {
  cs_id : nat;
  cs_ws : option nat;
  cs_data : option ClientData
}.

(** [ConnectResult], the answer of [sessionManager.addSession]. *)
Inductive ConnectResult : Type :=
| CRError (error : Err) (terminate : option bool)
| CRUpgrade (upgradeInfo : Value)
| CRSession (session : option Session) (workspaceId : string).

(** [WebsocketData], the registry entry of a connection. *)
Record WebsocketData : Type := {
  connectionSocket : option ConnectionSocket;
  payload : Token;
  token : string;
  wd_session : ConnectResult;
  wd_url : string
}.

(** The promise [sessionManager.handleRequest] returns, by how it settles
    once the handler that made the call has returned. *)
Inductive Settles : Type :=
| Fulfils
| Rejects (e : Err).

(** [pipeline.loadModel] answers an array or a [LoadModelResponse]. *)
Inductive LoadModelResult : Type :=
| ModelArray (txes : list Value)
| ModelResponse (transactions : list Value) (hash : string) (full : bool).

(** ** Trace of calls to the collaborators *)

Inductive Event : Type :=
| EvLog (message : string)
| EvError (message : string) (err : option Err)
| EvMeasure (name : string) (n : nat)
| EvAccept (ws : nat)
| EvWsSend (ws : nat) (f : Frame)
| EvWsSendFailed (ws : nat) (f : Frame) (e : Err)
| EvWsClose (ws : nat) (code : option Z) (reason : option string)
| EvWsCloseFailed (ws : nat) (code : option Z) (reason : option string) (e : Err)
| EvAutoResponse (ws : nat) (reply : string)
| EvRpcRead (buffer : string) (binary : bool)
| EvRpcSerialize (msg : Value) (binary : bool)
| EvCompress (f : Frame)
| EvAddSession (cs : ConnectionSocket) (t : Token) (rawToken : string)
    (sid : option string)
| EvSmClose (cs : option ConnectionSocket) (ws : string)
| EvHandleRequest (s : Session) (cs : ConnectionSocket) (rq : RpcRequest)
    (ws : string)
| EvFinallyLog (message : string) (rq : RpcRequest)
| EvWaitUntil
| EvIncludeSessionContext (s : Session) (pipeline : nat)
| EvFindAll (pipeline : nat) (_class : string) (query options : Value)
| EvTx (pipeline : nat) (txes : list Value)
| EvLoadModel (pipeline : nat) (lastModelTx : Z)
| EvGetRawAccount (s : Session) (pipeline : nat).

(** ** The collaborators *)

Record Env : Type := {
  (** the keep-alive constants of server-core *)
  pingConst : string;
  pongConst : string;
  (** [new URL(s)]; [None] when the constructor throws *)
  parseURL : string -> option URL;
  (** [decodeToken] of server-token *)
  decodeToken : string -> Outcome Token;
  (** the string [generateId()] makes of a fresh number *)
  genId : nat -> string;
  (** [Date.now()] *)
  now : list Event -> Z;
  (** [RPCHandler] of the rpc package *)
  rpc_readRequest : string -> bool -> Outcome RpcRequest;
  rpc_serialize : Value -> bool -> Frame;
  (** [compress] of snappyjs, which throws on what it cannot compress *)
  compress : Frame -> Outcome Frame;
  (** the transport: [Some e] when [ws.send] / [ws.close] throws [e] *)
  ws_send : list Event -> nat -> Frame -> option Err;
  ws_close : list Event -> nat -> option Z -> option string -> option Err;
  (** the session manager *)
  sm_addSession : list Event -> ConnectionSocket -> Token -> string ->
                  option string -> Outcome ConnectResult;
  sm_handleRequest : list Event -> Session -> ConnectionSocket -> RpcRequest ->
                     string -> Outcome Settles;
  sm_close : list Event -> option ConnectionSocket -> string -> option Err;
  (** the session and the pipeline *)
  includeSessionContext : list Event -> Session -> nat -> option Err;
  pipeline_findAll : list Event -> nat -> string -> Value -> Value -> Outcome Value;
  pipeline_tx : list Event -> nat -> list Value -> Outcome Value;
  pipeline_loadModel : list Event -> nat -> Z -> Outcome LoadModelResult;
  getRawAccount : list Event -> Session -> nat -> Outcome Value;
  (** [JSON.stringify], [TextEncoder.encode] and zlib's [gzip] *)
  JSON_stringify : list Value -> string;
  TextEncoder_encode : string -> string;
  gzip : string -> string
}.

(** ** The actor's state *)

Record State : Type := {
  (** fields of [Transactor] *)
  workspace : string;
  sessions : gmap nat WebsocketData;
  (** the hosting runtime: the auto-response pair, the accepted websockets
      ([ctx.getWebSockets()]), and each websocket's [readyState] *)
  autoResponse : option (string * string);
  webSockets : list nat;
  readyStates : gmap nat ReadyState;
  (** the connection sockets whose [isClosed] is true *)
  closedSockets : gset nat;
  (** source of fresh object identities *)
  nextId : nat;
  trace : list Event
}.

Definition readyState (s : State) (ws : nat) : ReadyState :=
  default CLOSED (readyStates s !! ws).

Definition isClosed (s : State) (cs : ConnectionSocket) : bool :=
  bool_decide (cs_id cs ∈ closedSockets s).

Definition set_trace (t : list Event) (s : State) : State :=
  {| workspace := workspace s; sessions := sessions s;
     autoResponse := autoResponse s; webSockets := webSockets s;
     readyStates := readyStates s; closedSockets := closedSockets s;
     nextId := nextId s; trace := t |}.

Definition set_workspace (w : string) (s : State) : State :=
  {| workspace := w; sessions := sessions s;
     autoResponse := autoResponse s; webSockets := webSockets s;
     readyStates := readyStates s; closedSockets := closedSockets s;
     nextId := nextId s; trace := trace s |}.

Definition set_sessions (m : gmap nat WebsocketData) (s : State) : State :=
  {| workspace := workspace s; sessions := m;
     autoResponse := autoResponse s; webSockets := webSockets s;
     readyStates := readyStates s; closedSockets := closedSockets s;
     nextId := nextId s; trace := trace s |}.

Definition set_autoResponse (p : option (string * string)) (s : State) : State :=
  {| workspace := workspace s; sessions := sessions s;
     autoResponse := p; webSockets := webSockets s;
     readyStates := readyStates s; closedSockets := closedSockets s;
     nextId := nextId s; trace := trace s |}.

Definition set_webSockets (l : list nat) (s : State) : State :=
  {| workspace := workspace s; sessions := sessions s;
     autoResponse := autoResponse s; webSockets := l;
     readyStates := readyStates s; closedSockets := closedSockets s;
     nextId := nextId s; trace := trace s |}.

Definition set_readyStates (r : gmap nat ReadyState) (s : State) : State :=
  {| workspace := workspace s; sessions := sessions s;
     autoResponse := autoResponse s; webSockets := webSockets s;
     readyStates := r; closedSockets := closedSockets s;
     nextId := nextId s; trace := trace s |}.

Definition set_closedSockets (c : gset nat) (s : State) : State :=
  {| workspace := workspace s; sessions := sessions s;
     autoResponse := autoResponse s; webSockets := webSockets s;
     readyStates := readyStates s; closedSockets := c;
     nextId := nextId s; trace := trace s |}.

Definition set_nextId (n : nat) (s : State) : State :=
  {| workspace := workspace s; sessions := sessions s;
     autoResponse := autoResponse s; webSockets := webSockets s;
     readyStates := readyStates s; closedSockets := closedSockets s;
     nextId := n; trace := trace s |}.

(** ** The handler monad: state, and errors that propagate *)

Definition M (A : Type) : Type := State -> Outcome A * State.

Definition ret {A} (a : A) : M A := fun s => (Ok a, s).

Definition throw {A} (e : Err) : M A := fun s => (Throw e, s).

Definition bind {A B} (m : M A) (k : A -> M B) : M B :=
  fun s =>
    match m s with
    | (Ok a, s') => k a s'
    | (Throw e, s') => (Throw e, s')
    end.

(** [try { body } catch (err) { handler }] *)
Definition try_catch {A} (body : M A) (handler : Err -> M A) : M A :=
  fun s =>
    match body s with
    | (Ok a, s') => (Ok a, s')
    | (Throw e, s') => handler e s'
    end.

(** [try { body } finally { cleanup }]: the cleanup runs on every exit of the
    body, and an error of the cleanup replaces the body's completion. *)
Definition try_finally {A} (body : M A) (cleanup : M unit) : M A :=
  fun s =>
    match body s with
    | (r, s') =>
        match cleanup s' with
        | (Ok _, s'') => (r, s'')
        | (Throw e, s'') => (Throw e, s'')
        end
    end.

Definition get : M State := fun s => (Ok s, s).

Definition modify (f : State -> State) : M unit := fun s => (Ok tt, f s).

Definition emit (e : Event) : M unit :=
  modify (fun s => set_trace (trace s ++ [e]) s).

Declare Scope handler_scope.
Delimit Scope handler_scope with handler.
Notation "'do' x <- m ; k" := (bind m (fun x => k))
  (at level 10, x name, m at level 100, k at level 200) : handler_scope.
Notation "m ;; k" := (bind m (fun _ => k))
  (at level 100, k at level 200, right associativity) : handler_scope.
Local Open Scope handler_scope.

(** [url.pathname.substring(1)] *)
Definition substring1 (s : string) : string :=
  match s with
  | EmptyString => EmptyString
  | String _ rest => rest
  end.

Section Transactor.

Context (E : Env).

Definition console_log (message : string) : M unit := emit (EvLog message).

Definition console_error (message : string) (err : option Err) : M unit :=
  emit (EvError message err).

Definition measure (name : string) (n : nat) : M unit := emit (EvMeasure name n).

Definition Date_now : M Z := fun s => (Ok (now E (trace s)), s).

(** [generateId()] *)
Definition generateId : M nat :=
  fun s => (Ok (nextId s), set_nextId (S (nextId s)) s).

(** *** The websocket transport *)

(** [ws.send(f)] *)
Definition ws_send_op (ws : nat) (f : Frame) : M unit :=
  fun s =>
    match ws_send E (trace s) ws f with
    | None => (Ok tt, set_trace (trace s ++ [EvWsSend ws f]) s)
    | Some e => (Throw e, set_trace (trace s ++ [EvWsSendFailed ws f e]) s)
    end.

(** What a successful [ws.close] does to the [readyState]: the socket
    leaves OPEN for good. *)
Definition closing (r : ReadyState) : ReadyState :=
  match r with
  | CONNECTING | OPEN => CLOSING
  | CLOSING => CLOSING
  | CLOSED => CLOSED
  end.

(** [ws.close(code, reason)] *)
Definition ws_close_op (ws : nat) (code : option Z) (reason : option string)
  : M unit :=
  fun s =>
    match ws_close E (trace s) ws code reason with
    | None =>
        (Ok tt,
          set_trace (trace s ++ [EvWsClose ws code reason])
            (set_readyStates (<[ws := closing (readyState s ws)]> (readyStates s)) s))
    | Some e =>
        (Throw e, set_trace (trace s ++ [EvWsCloseFailed ws code reason e]) s)
    end.

(** [new WebSocketPair()]: two fresh websockets, both open. *)
Definition new_WebSocketPair : M (nat * nat) :=
  do client <- generateId;
  do server <- generateId;
  modify (fun s =>
    set_readyStates (<[server := OPEN]> (<[client := OPEN]> (readyStates s))) s);;
  ret (client, server).

(** [this.ctx.acceptWebSocket(ws)] *)
Definition acceptWebSocket (ws : nat) : M unit :=
  modify (fun s => set_webSockets (webSockets s ++ [ws]) s);;
  emit (EvAccept ws).

(** [this.ctx.getWebSockets()] *)
Definition getWebSockets : M (list nat) := fun s => (Ok (webSockets s), s).

(** *** The RPC codec *)

Definition rpcHandler_readRequest (buffer : string) (binary : bool)
  : M RpcRequest :=
  emit (EvRpcRead buffer binary);;
  match rpc_readRequest E buffer binary with
  | Ok r => ret r
  | Throw e => throw e
  end.

Definition rpcHandler_serialize (msg : Value) (binary : bool) : M Frame :=
  emit (EvRpcSerialize msg binary);;
  ret (rpc_serialize E msg binary).

(** *** The session manager, the session and the pipeline *)

Definition decodeToken_op (raw : string) : M Token :=
  match decodeToken E raw with
  | Ok t => ret t
  | Throw e => throw e
  end.

(** [await this.sessionManager.addSession(...)] *)
Definition sessionManager_addSession (cs : ConnectionSocket) (t : Token)
  (rawToken : string) (sid : option string) : M ConnectResult :=
  fun s =>
    let s' := set_trace (trace s ++ [EvAddSession cs t rawToken sid]) s in
    match sm_addSession E (trace s) cs t rawToken sid with
    | Ok r => (Ok r, s')
    | Throw e => (Throw e, s')
    end.

(** [await this.sessionManager.close(this.measureCtx, cs, this.workspace)];
    no caller guards this call. *)
Definition sessionManager_close (cs : option ConnectionSocket) : M unit :=
  fun s =>
    let s' := set_trace (trace s ++ [EvSmClose cs (workspace s)]) s in
    match sm_close E (trace s) cs (workspace s) with
    | None => (Ok tt, s')
    | Some e => (Throw e, s')
    end.

(** [this.sessionManager.handleRequest(...)], which is not awaited: the call
    throws, or returns the promise [r]. *)
Definition sessionManager_handleRequest (sess : Session) (cs : ConnectionSocket)
  (rq : RpcRequest) : M Settles :=
  fun s =>
    let s' := set_trace (trace s ++ [EvHandleRequest sess cs rq (workspace s)]) s in
    match sm_handleRequest E (trace s) sess cs rq (workspace s) with
    | Ok r => (Ok r, s')
    | Throw e => (Throw e, s')
    end.

(** [session.workspace.pipeline instanceof Promise
       ? await session.workspace.pipeline : session.workspace.pipeline] *)
Definition await_pipeline (sess : Session) : M nat :=
  match workspace_pipeline sess with
  | Resolved p => ret p
  | Pending (Ok p) => ret p
  | Pending (Throw e) => throw e
  end.

Definition includeSessionContext_op (sess : Session) (p : nat) : M unit :=
  fun s =>
    let s' := set_trace (trace s ++ [EvIncludeSessionContext sess p]) s in
    match includeSessionContext E (trace s) sess p with
    | None => (Ok tt, s')
    | Some e => (Throw e, s')
    end.

Definition pipeline_findAll_op (p : nat) (_class : string)
  (query options : Value) : M Value :=
  fun s =>
    let s' := set_trace (trace s ++ [EvFindAll p _class query options]) s in
    match pipeline_findAll E (trace s) p _class query options with
    | Ok v => (Ok v, s')
    | Throw e => (Throw e, s')
    end.

Definition pipeline_tx_op (p : nat) (txes : list Value) : M Value :=
  fun s =>
    let s' := set_trace (trace s ++ [EvTx p txes]) s in
    match pipeline_tx E (trace s) p txes with
    | Ok v => (Ok v, s')
    | Throw e => (Throw e, s')
    end.

Definition pipeline_loadModel_op (p : nat) (lastModelTx : Z)
  : M LoadModelResult :=
  fun s =>
    let s' := set_trace (trace s ++ [EvLoadModel p lastModelTx]) s in
    match pipeline_loadModel E (trace s) p lastModelTx with
    | Ok v => (Ok v, s')
    | Throw e => (Throw e, s')
    end.

Definition getRawAccount_op (sess : Session) (p : nat) : M Value :=
  fun s =>
    let s' := set_trace (trace s ++ [EvGetRawAccount sess p]) s in
    match getRawAccount E (trace s) sess p with
    | Ok v => (Ok v, s')
    | Throw e => (Throw e, s')
    end.

(** *** Connection sockets *)

(** [cs.isClosed = true] *)
Definition set_isClosed (cs : ConnectionSocket) : M unit :=
  modify (fun s => set_closedSockets ({[cs_id cs]} ∪ closedSockets s) s).

(** [isClosed: false] of a new socket object *)
Definition init_isClosed (i : nat) : M unit :=
  modify (fun s => set_closedSockets (closedSockets s ∖ {[i]}) s).

Definition createWebsocketClientSocket (ws : nat) (data : ClientData)
  : M ConnectionSocket :=
  do i <- generateId;
  init_isClosed i;;
  ret {| cs_id := i; cs_ws := Some ws; cs_data := Some data |}.

Definition createDummyClientSocket : M ConnectionSocket :=
  do i <- generateId;
  init_isClosed i;;
  ret {| cs_id := i; cs_ws := None; cs_data := None |}.

(** [ws.readyState !== WebSocket.OPEN || cs.isClosed] *)
Definition dead (s : State) (ws : nat) (cs : ConnectionSocket) : bool :=
  negb (ReadyState_eqb (readyState s ws) OPEN) || isClosed s cs.

Definition cs_close (cs : ConnectionSocket) : M unit :=
  match cs_ws cs with
  | Some ws => set_isClosed cs;; ws_close_op ws None None
  | None => set_isClosed cs
  end.

Definition cs_checkState (cs : ConnectionSocket) : M bool :=
  match cs_ws cs with
  | Some ws =>
      do s <- get;
      if ReadyState_eqb (readyState s ws) CLOSED
         || ReadyState_eqb (readyState s ws) CLOSING
      then ws_close_op ws None None;; ret false
      else ret true
  | None =>
      do s <- get;
      ret (negb (isClosed s cs))
  end.

(** The synthetic ping of [readRequest]. *)
Definition syntheticPing (t : Z) : RpcRequest :=
  {| method := pingConst E; params := []; id := VNum (-1); time := Some t |}.

(** [{} as any], what the dummy socket's [readRequest] returns. *)
Definition emptyRequest : RpcRequest :=
  {| method := ""; params := []; id := VUndefined; time := None |}.

Definition cs_readRequest (cs : ConnectionSocket) (buffer : string)
  (binary : bool) : M RpcRequest :=
  match cs_ws cs with
  | Some _ =>
      if Nat.eqb (String.length buffer) (String.length (pingConst E)) then
        if String.eqb buffer (pingConst E) then
          do t <- Date_now;
          ret (syntheticPing t)
        else rpcHandler_readRequest buffer binary
      else rpcHandler_readRequest buffer binary
  | None => ret emptyRequest
  end.

Definition cs_send (cs : ConnectionSocket) (msg : Value)
  (binary _compression : bool) : M unit :=
  match cs_ws cs with
  | Some ws =>
      do smsg <- rpcHandler_serialize msg binary;
      measure "send-data" (frameLength smsg);;
      do s <- get;
      if dead s ws cs then ret tt
      else
        do smsg' <- (if _compression
                     then emit (EvCompress smsg);;
                          match compress E smsg with
                          | Ok compressed => ret compressed
                          | Throw e => throw e
                          end
                     else ret smsg);
        ws_send_op ws smsg'
  | None => ret tt
  end.

Definition cs_sendPong (cs : ConnectionSocket) : M unit :=
  match cs_ws cs with
  | Some ws =>
      do s <- get;
      if dead s ws cs then ret tt
      else ws_send_op ws (Text (pongConst E))
  | None => ret tt
  end.

(** *** The actor *)

(** [constructor]: the part that touches the modelled state.  The actor
    starts unbound, with an empty registry, and registers the keep-alive
    auto-response pair with the runtime; [host] carries the websockets the
    runtime already holds. *)
Definition constructor (host : State) : State :=
  set_autoResponse (Some (pingConst E, pongConst E))
    (set_sessions ∅ (set_workspace "" host)).

Definition token_mode (t : Token) : Value :=
  match extra t with Some x => mode x | None => VUndefined end.

Definition token_model (t : Token) : Value :=
  match extra t with Some x => model x | None => VUndefined end.

(** The message sent while the workspace is upgrading. *)
Definition upgradingMessage (upgradeInfo : Value) : Value :=
  VObj [("id", VNum (-1));
        ("result", VObj [("state", VStr "upgrading"); ("stats", upgradeInfo)])].

(** [if (this.workspace === '') { this.workspace = name }], the statement
    [fetch] and [makeRpcSession] share ("By design, all fetches to this
    durable object will be for the same workspace"). *)
Definition bind_workspace (name : string) : M unit :=
  do st <- get;
  if String.eqb (workspace st) "" then modify (set_workspace name)
  else ret tt.

(** The [data] object [handleSession] builds from the request and token. *)
Definition sessionData (request : Request) (t : Token) : ClientData :=
  {| remoteAddress := default "" (CF_Connecting_IP request);
     userAgent := default "" (user_agent request);
     language := default "" (accept_language request);
     cd_email := email t;
     cd_mode := token_mode t;
     cd_model := token_model t |}.

Definition handleSession (ws : nat) (request : Request) (t : Token)
  (rawToken : string) (sid : option string) : M bool :=
  let data := sessionData request t in
  console_log "New session attempt";;
  acceptWebSocket ws;;
  do cs <- createWebsocketClientSocket ws data;
  do returned <-
    try_catch
      (do session <- sessionManager_addSession cs t rawToken sid;
       let webSocketData :=
         {| connectionSocket := Some cs; payload := t; token := rawToken;
            wd_session := session; wd_url := "" |} in
       match session with
       | CRError error terminate =>
           console_error "Failed to establish session:" (Some error);;
           ws_close_op ws (Some 4003%Z) (Some "Session establishment failed");;
           (if terminate is Some true then ws_close_op ws None None else ret tt);;
           throw error
       | CRUpgrade upgradeInfo =>
           cs_send cs (upgradingMessage upgradeInfo) false false;;
           cs_close cs;;
           ret (Some true)
       | CRSession None _ =>
           (* [session.session.sessionId] of the log line below *)
           throw (TypeError "Cannot read properties of undefined")
       | CRSession (Some _) _ =>
           console_log "Session established successfully:";;
           modify (fun s => set_sessions (<[ws := webSocketData]> (sessions s)) s);;
           ret None
       end)
      (fun err =>
         console_error "Failed to establish session:" (Some err);;
         ws_close_op ws (Some 4003%Z) (Some "Session establishment failed");;
         throw err);
  match returned with
  | Some b => ret b
  | None => ret true
  end.

Definition fetch (request : Request) : M Response :=
  do pair <- new_WebSocketPair;
  match parseURL E (url request) with
  | None => throw (TypeError "Invalid URL")
  | Some u =>
      let rawToken := substring1 (pathname u) in
      try_catch
        (do payload <- decodeToken_op rawToken;
         let sid := searchParams_sessionId u in
         bind_workspace (workspace_name payload);;
         do ok <- handleSession pair.2 request payload rawToken sid;
         if negb ok then ret {| status := 404; webSocket := None |}
         else ret {| status := 101; webSocket := Some pair.1 |})
        (fun err =>
           console_error "Failed to handle request" (Some err);;
           ret {| status := 404; webSocket := None |})
  end.

(** Modelled from the spec: [doSessionOp] of the server package, which
    transactor.ts only imports.  For an established session each frame is
    handed to the
    operation ("Established: each frame: measure inbound bytes, decode,
    dispatch"); an entry that holds no established session runs nothing. *)
Definition doSessionOp (data : WebsocketData)
  (op : option Session -> string -> string -> M unit) (msg : string) : M unit :=
  match wd_session data with
  | CRSession sess workspaceId => op sess workspaceId msg
  | CRError _ _ | CRUpgrade _ => ret tt
  end.

Definition webSocketMessage (ws : nat) (message : Frame) : M unit :=
  do st <- get;
  match sessions st !! ws with
  | None => ret tt
  | Some session =>
      match connectionSocket session with
      | None => ret tt
      | Some cs =>
          try_catch
            (doSessionOp session
               (fun s _ buff =>
                  measure "receive-data" (String.length buff);;
                  match s with
                  | None =>
                      (* [s.session.binaryMode] *)
                      throw (TypeError "Cannot read properties of undefined")
                  | Some sess =>
                      do request <- cs_readRequest cs buff (binaryMode sess);
                      do _st <- Date_now;
                      do r <- sessionManager_handleRequest sess cs request;
                      (* [void r.finally(...)], [this.ctx.waitUntil(r)] *)
                      emit (EvFinallyLog "handle-request" request);;
                      emit EvWaitUntil
                  end)
               (Buffer_from message))
            (fun err => console_error "Failed to handle message:" (Some err))
      end
  end.

(** The promise [r.finally(() => { console.log({ message: 'handle-request',
    ... }) })] of [webSocketMessage], once [r] has settled: the callback
    logs, whatever the outcome, and the promise, which the handler discarded
    with [void], settles as [r] did. *)
Definition handleRequest_finally (request : RpcRequest) (r : Settles) : M unit :=
  do _now <- Date_now;
  console_log "handle-request";;
  match r with
  | Fulfils => ret tt
  | Rejects e => throw e
  end.

Definition handleClose (ws : nat) (code : Z) (reason : option string) : M unit :=
  try_catch
    (console_log "Closing connection with code";;
     ws_close_op ws (Some code) reason)
    (fun err => console_error "Failed to close WebSocket:" (Some err));;
  do st <- get;
  match sessions st !! ws with
  | Some session =>
      modify (fun s => set_sessions (delete ws (sessions s)) s);;
      console_log "Cleaning up session for";;
      sessionManager_close (connectionSocket session)
  | None => ret tt
  end.

Definition webSocketError (ws : nat) (error : Err) : M unit :=
  console_error "WebSocket error:" (Some error);;
  handleClose ws 1011 (Some "error").

Definition alarm : M unit := console_log "Resource usage".

Definition sendMessage (ws : nat) (message : Frame) : M unit :=
  try_catch
    (ws_send_op ws message)
    (fun error =>
       console_error "Failed to send message:" (Some error);;
       handleClose ws 1011 (Some "error")).

(** [await Promise.all(l.map(async (x) => { await f(x) }))]: [map] starts
    every call in turn, whatever the earlier ones did; the result rejects
    with the first error. *)
Fixpoint Promise_all_map (f : nat -> M unit) (l : list nat) : M unit :=
  match l with
  | [] => ret tt
  | x :: rest =>
      fun s =>
        match f x s with
        | (Ok _, s') => Promise_all_map f rest s'
        | (Throw e, s') => (Throw e, (Promise_all_map f rest s').2)
        end
  end.

Definition isOpen (s : State) (ws : nat) : bool :=
  ReadyState_eqb (readyState s ws) OPEN.

Definition broadcastMessage (message : string) : M unit :=
  console_log "broadcast";;
  do all <- getWebSockets;
  do st <- get;
  let wss := List.filter (isOpen st) all in
  Promise_all_map (fun ws => sendMessage ws (Binary message)) wss.

(** *** The bridge *)

Definition makeRpcSession (rawToken : string) (cs : ConnectionSocket)
  : M Session :=
  do t <- decodeToken_op rawToken;
  do fresh <- generateId;
  do session <- sessionManager_addSession cs t rawToken (Some (genId E fresh));
  match session with
  | CRError error _ => throw error
  | CRUpgrade _ => throw (Error "Workspace is upgrading")
  | CRSession None _ => throw (Error "No session")
  | CRSession (Some sess) _ =>
      bind_workspace (workspace_name t);;
      ret sess
  end.

(** [{ error: `${error}` }] *)
Definition errorValue (error : Err) : Value :=
  VObj [("error", VStr (errString error))].

(** [v ?? {}]: the empty object for an argument that was left out, is
    [undefined] or is [null]. *)
Definition orEmptyObject (v : option Value) : Value :=
  match v with
  | None | Some VUndefined | Some VNull => VObj []
  | Some given => given
  end.

Definition findAll (rawToken workspaceId _class : string)
  (query options : option Value) : M Value :=
  do cs <- createDummyClientSocket;
  try_finally
    (try_catch
       (do sess <- makeRpcSession rawToken cs;
        do pipeline <- await_pipeline sess;
        includeSessionContext_op sess pipeline;;
        pipeline_findAll_op pipeline _class
          (orEmptyObject query) (orEmptyObject options))
       (fun error => ret (errorValue error)))
    (sessionManager_close (Some cs)).

Definition tx (rawToken workspaceId : string) (t : Value) : M Value :=
  do cs <- createDummyClientSocket;
  try_finally
    (try_catch
       (do sess <- makeRpcSession rawToken cs;
        do pipeline <- await_pipeline sess;
        includeSessionContext_op sess pipeline;;
        pipeline_tx_op pipeline [t])
       (fun error => ret (errorValue error)))
    (sessionManager_close (Some cs)).

(** What [getModel] returns: the error object, or the compressed bytes. *)
Inductive ModelReply : Type :=
| ReplyError (v : Value)
| ReplyBlob (compressed : string).

(** The transactions a [loadModel] answer carries:
    [Array.isArray(ret) ? ret : ret.transactions]. *)
Definition reported (ret : LoadModelResult) : list Value :=
  match ret with
  | ModelArray txes => txes
  | ModelResponse transactions _ _ => transactions
  end.

(** The [try / catch / finally] statement of [getModel]: the error object
    its [catch] returns, or the [result] it leaves for the encoding. *)
Definition getModel_load (rawToken : string) (cs : ConnectionSocket)
  : M (Value + list Value) :=
  try_finally
    (try_catch
       (do sess <- makeRpcSession rawToken cs;
        do pipeline <- await_pipeline sess;
        includeSessionContext_op sess pipeline;;
        do loaded <- pipeline_loadModel_op pipeline 0;
        ret (inr (reported loaded)))
       (fun error => ret (inl (errorValue error))))
    (sessionManager_close (Some cs)).

Definition getModel (rawToken : string) : M ModelReply :=
  do cs <- createDummyClientSocket;
  do r <- getModel_load rawToken cs;
  match r with
  | inl e => ret (ReplyError e)
  | inr result =>
      let buffer := TextEncoder_encode E (JSON_stringify E result) in
      ret (ReplyBlob (gzip E buffer))
  end.

Definition getAccount (rawToken : string) : M Value :=
  do cs <- createDummyClientSocket;
  try_finally
    (try_catch
       (do sess <- makeRpcSession rawToken cs;
        do pipeline <- await_pipeline sess;
        getRawAccount_op sess pipeline)
       (fun error => ret (errorValue error)))
    (sessionManager_close (Some cs)).

(** *** The hosting runtime *)

(** How the runtime hands an incoming frame to the actor once
    [setWebSocketAutoResponse] has registered a pair: a text frame equal to
    the pair's request is answered with the pair's response and the actor is
    not woken; every other frame goes to [webSocketMessage]. *)
Definition runtime_receive (ws : nat) (message : Frame) : M unit :=
  do st <- get;
  match autoResponse st, message with
  | Some (request, response), Text m =>
      if String.eqb m request then emit (EvAutoResponse ws response)
      else webSocketMessage ws message
  | _, _ => webSocketMessage ws message
  end.

End Transactor.

(** ** The actor's operations, as one step function *)

(** A call the session manager makes on a connection socket it was given. *)
Inductive SocketCall : Type :=
| CallSend (msg : Value) (binary compression : bool)
| CallSendPong
| CallClose
| CallCheckState
| CallReadRequest (buffer : string) (binary : bool).

(** Everything that can run against the actor's state: the methods of the
    class, frames delivered by the runtime, the methods of the connection
    sockets it handed out, and the completion callback of a dispatched
    request. *)
Inductive Op : Type :=
| OpFetch (request : Request)
| OpReceive (ws : nat) (message : Frame)
| OpWebSocketMessage (ws : nat) (message : Frame)
| OpWebSocketError (ws : nat) (error : Err)
| OpAlarm
| OpHandleSession (ws : nat) (request : Request) (t : Token)
    (rawToken : string) (sid : option string)
| OpBroadcastMessage (message : string)
| OpSendMessage (ws : nat) (message : Frame)
| OpHandleClose (ws : nat) (code : Z) (reason : option string)
| OpFindAll (rawToken workspaceId _class : string) (query options : option Value)
| OpTx (rawToken workspaceId : string) (t : Value)
| OpGetModel (rawToken : string)
| OpGetAccount (rawToken : string)
| OpSocket (cs : ConnectionSocket) (call : SocketCall)
| OpSettled (request : RpcRequest) (r : Settles).

Definition socketCall (E : Env) (cs : ConnectionSocket) (call : SocketCall)
  : State -> State :=
  match call with
  | CallSend msg binary compression =>
      fun s => (cs_send E cs msg binary compression s).2
  | CallSendPong => fun s => (cs_sendPong E cs s).2
  | CallClose => fun s => (cs_close E cs s).2
  | CallCheckState => fun s => (cs_checkState E cs s).2
  | CallReadRequest buffer binary =>
      fun s => (cs_readRequest E cs buffer binary s).2
  end.

Definition step (E : Env) (op : Op) : State -> State :=
  match op with
  | OpFetch request => fun s => (fetch E request s).2
  | OpReceive ws message => fun s => (runtime_receive E ws message s).2
  | OpWebSocketMessage ws message => fun s => (webSocketMessage E ws message s).2
  | OpWebSocketError ws error => fun s => (webSocketError E ws error s).2
  | OpAlarm => fun s => (alarm s).2
  | OpHandleSession ws request t rawToken sid =>
      fun s => (handleSession E ws request t rawToken sid s).2
  | OpBroadcastMessage message => fun s => (broadcastMessage E message s).2
  | OpSendMessage ws message => fun s => (sendMessage E ws message s).2
  | OpHandleClose ws code reason => fun s => (handleClose E ws code reason s).2
  | OpFindAll rawToken workspaceId _class query options =>
      fun s => (findAll E rawToken workspaceId _class query options s).2
  | OpTx rawToken workspaceId t => fun s => (tx E rawToken workspaceId t s).2
  | OpGetModel rawToken => fun s => (getModel E rawToken s).2
  | OpGetAccount rawToken => fun s => (getAccount E rawToken s).2
  | OpSocket cs call => socketCall E cs call
  | OpSettled request r => fun s => (handleRequest_finally E request r s).2
  end.

Definition run (E : Env) (ops : list Op) (s : State) : State :=
  fold_left (fun st op => step E op st) ops s.

(** ** The pipeline factory of the constructor *)

Module Factory.

(** The bindings of [env] that choose the database. *)
Record Bindings : Type := {
  DB_MODE : option string;
  DB_URL : option string;
  HYPERDRIVE_connectionString : string
}.

(** [env.DB_MODE === 'direct' ? env.DB_URL ?? '' : env.HYPERDRIVE.connectionString] *)
Definition dbUrl (env : Bindings) : string :=
  match DB_MODE env with
  | Some m =>
      if String.eqb m "direct" then default "" (DB_URL env)
      else HYPERDRIVE_connectionString env
  | None => HYPERDRIVE_connectionString env
  end.

(** What the factory asks of the pipeline builder and of the database
    client, in order. *)
Inductive Call : Type :=
| CreateServerPipeline (url : string)
| RunPipeline
| GetDBClient (url : string)
| GetClient
| SelectNow
| LogQueryTime
| ClientClose.

(** The answers: the pipeline built by [await pipeline(...)], and whether
    [await client.getClient()] and [await connection`select now()`] throw. *)
Record Answers : Type := {
  pipeline : Outcome nat;
  getClient : option Err;
  select_now : option Err
}.

Definition pipelineFactory (env : Bindings) (a : Answers)
  : Outcome nat * list Call :=
  let built := [CreateServerPipeline (dbUrl env); RunPipeline] in
  match pipeline a with
  | Throw e => (Throw e, built)
  | Ok result =>
      let asked := built ++ [GetDBClient (dbUrl env); GetClient] in
      match getClient a with
      | Some e => (Throw e, asked)
      | None =>
          match select_now a with
          | Some e => (Throw e, asked ++ [SelectNow])
          | None =>
              (Ok result, asked ++ [SelectNow; LogQueryTime; ClientClose])
          end
      end
  end.

End Factory.

(** ** A concrete environment, for running the model *)

Module Demo.

Definition tokenFor (w : string) : Token :=
  {| email := "user@example.com"; workspace_name := w; extra := None |}.

Definition session1 : Session :=
  {| sessionId := "s1"; binaryMode := true; user := "user@example.com";
     workspace_pipeline := Resolved 0 |}.

(** A rendering of a value, for a codec whose frames show the message. *)
Fixpoint show (v : Value) : string :=
  match v with
  | VUndefined => "undefined"
  | VNull => "null"
  | VBool true => "true"
  | VBool false => "false"
  | VNum n => pretty n
  | VStr s => s
  | VArr items =>
      "[" +:+ (fix go l :=
                 match l with
                 | [] => ""
                 | x :: rest =>
                     show x +:+ (match rest with [] => "" | _ => "," end) +:+ go rest
                 end) items +:+ "]"
  | VObj fields =>
      "{" +:+ (fix go l :=
                 match l with
                 | [] => ""
                 | (k, x) :: rest =>
                     k +:+ ":" +:+ show x
                       +:+ (match rest with [] => "" | _ => "," end) +:+ go rest
                 end) fields +:+ "}"
  end.

Definition serialize (msg : Value) (binary : bool) : Frame :=
  if binary then Binary (show msg) else Text (show msg).

(** An interchange format for the snapshot that can be read back: a value
    as a tree, the trees as a number, the number as its binary digits. *)
Definition Atom : Type := (bool + Z + string)%type.

Fixpoint to_tree (v : Value) : gen_tree Atom :=
  match v with
  | VUndefined => GenNode 0 []
  | VNull => GenNode 1 []
  | VBool b => GenLeaf (inl (inl b))
  | VNum n => GenLeaf (inl (inr n))
  | VStr s => GenLeaf (inr s)
  | VArr items => GenNode 2 (map to_tree items)
  | VObj fields =>
      GenNode 3 ((fix go l :=
                    match l with
                    | [] => []
                    | (k, x) :: rest => GenLeaf (inr k) :: to_tree x :: go rest
                    end) fields)
  end.

Fixpoint of_tree (t : gen_tree Atom) : option Value :=
  match t with
  | GenLeaf (inl (inl b)) => Some (VBool b)
  | GenLeaf (inl (inr n)) => Some (VNum n)
  | GenLeaf (inr s) => Some (VStr s)
  | GenNode 0 [] => Some VUndefined
  | GenNode 1 [] => Some VNull
  | GenNode 2 ts =>
      option_map VArr
        ((fix go l :=
            match l with
            | [] => Some []
            | x :: rest =>
                match of_tree x, go rest with
                | Some v, Some vs => Some (v :: vs)
                | _, _ => None
                end
            end) ts)
  | GenNode 3 ts =>
      option_map VObj
        ((fix go l :=
            match l with
            | [] => Some []
            | GenLeaf (inr k) :: x :: rest =>
                match of_tree x, go rest with
                | Some v, Some fs => Some ((k, v) :: fs)
                | _, _ => None
                end
            | _ => None
            end) ts)
  | _ => None
  end.

Fixpoint of_trees (ts : list (gen_tree Atom)) : option (list Value) :=
  match ts with
  | [] => Some []
  | x :: rest =>
      match of_tree x, of_trees rest with
      | Some v, Some vs => Some (v :: vs)
      | _, _ => None
      end
  end.

Fixpoint bits (p : positive) : string :=
  match p with
  | xH => ""
  | xO q => String "0"%char (bits q)
  | xI q => String "1"%char (bits q)
  end.

Fixpoint unbits (s : string) : option positive :=
  match s with
  | EmptyString => Some xH
  | String c rest =>
      if Ascii.eqb c "0"%char then option_map xO (unbits rest)
      else if Ascii.eqb c "1"%char then option_map xI (unbits rest)
      else None
  end.

Definition json (txes : list Value) : string := bits (encode (map to_tree txes)).

Definition unjson (text : string) : option (list Value) :=
  match unbits text with
  | Some p =>
      match decode p with
      | Some ts => of_trees ts
      | None => None
      end
  | None => None
  end.

(** The raw token is the workspace name, and the empty token does not
    verify; [compress] takes bytes only.  The codec's [serialize], the
    transport's [send], the session manager and [loadModel] are left open;
    the other collaborators always answer. *)
Definition envFull
  (serialize : Value -> bool -> Frame)
  (send : list Event -> nat -> Frame -> option Err)
  (addSession : list Event -> ConnectionSocket -> Token -> string ->
                option string -> Outcome ConnectResult)
  (handle : list Event -> Session -> ConnectionSocket -> RpcRequest -> string ->
            Outcome Settles)
  (close : list Event -> option ConnectionSocket -> string -> option Err)
  (loadModel : list Event -> nat -> Z -> Outcome LoadModelResult) : Env :=
  {| pingConst := "ping";
     pongConst := "pong!";
     parseURL := fun u => Some {| pathname := u; searchParams_sessionId := None |};
     decodeToken := fun raw =>
       if String.eqb raw "" then Throw (Error "Invalid token")
       else Ok (tokenFor raw);
     genId := fun _ => "id";
     now := fun _ => 0%Z;
     rpc_readRequest := fun buffer _ =>
       if String.eqb buffer "" then Throw (Error "Unexpected end of input")
       else Ok {| method := buffer; params := []; id := VNum 1; time := None |};
     rpc_serialize := serialize;
     compress := fun f =>
       match f with
       | Binary bytes => Ok (Binary bytes)
       | Text _ =>
           Throw (TypeError
             "Argument compressed must be type of ArrayBuffer, Buffer, or Uint8Array")
       end;
     ws_send := send;
     ws_close := fun _ _ _ _ => None;
     sm_addSession := addSession;
     sm_handleRequest := handle;
     sm_close := close;
     includeSessionContext := fun _ _ _ => None;
     pipeline_findAll := fun _ _ _ _ _ => Ok (VArr []);
     pipeline_tx := fun _ _ _ => Ok (VObj []);
     pipeline_loadModel := loadModel;
     getRawAccount := fun _ _ _ => Ok (VObj [("email", VStr "user@example.com")]);
     JSON_stringify := json;
     TextEncoder_encode := fun x => x;
     gzip := fun b => "z" +:+ b |}.

(** As [envFull], with a codec whose every frame is ["{}"], a session
    manager that releases every session, and a pipeline whose model is one
    transaction. *)
Definition envWith
  (send : list Event -> nat -> Frame -> option Err)
  (addSession : list Event -> ConnectionSocket -> Token -> string ->
                option string -> Outcome ConnectResult)
  (handle : list Event -> Session -> ConnectionSocket -> RpcRequest -> string ->
            Outcome Settles) : Env :=
  envFull (fun _ binary => if binary then Binary "{}" else Text "{}")
          send addSession handle
          (fun _ _ _ => None)
          (fun _ _ _ => Ok (ModelArray [VNum 1])).

(** Every collaborator answers, and every connection gets a session. *)
Definition env : Env :=
  envWith (fun _ _ _ => None)
          (fun _ _ t _ _ => Ok (CRSession (Some session1) (workspace_name t)))
          (fun _ _ _ _ _ => Ok Fulfils).

(** As [env], but every write to websocket 1 throws. *)
Definition flaky : Env :=
  envWith (fun _ ws _ => if Nat.eqb ws 1 then Some (Error "Network connection lost")
                         else None)
          (fun _ _ t _ _ => Ok (CRSession (Some session1) (workspace_name t)))
          (fun _ _ _ _ _ => Ok Fulfils).

(** As [env], but the workspace is upgrading, and the codec's frames show
    the message. *)
Definition upgrading : Env :=
  envFull serialize
          (fun _ _ _ => None)
          (fun _ _ _ _ _ => Ok (CRUpgrade (VNum 42)))
          (fun _ _ _ _ _ => Ok Fulfils)
          (fun _ _ _ => None)
          (fun _ _ _ => Ok (ModelArray [VNum 1])).

(** As [upgrading], but the client is gone: every write throws. *)
Definition lostClient : Env :=
  envFull serialize
          (fun _ _ _ => Some (Error "Network connection lost"))
          (fun _ _ _ _ _ => Ok (CRUpgrade (VNum 42)))
          (fun _ _ _ _ _ => Ok Fulfils)
          (fun _ _ _ => None)
          (fun _ _ _ => Ok (ModelArray [VNum 1])).

(** As [env], but every request that is dispatched fails: the promise of
    [handleRequest] is rejected. *)
Definition failing : Env :=
  envWith (fun _ _ _ => None)
          (fun _ _ t _ _ => Ok (CRSession (Some session1) (workspace_name t)))
          (fun _ _ _ _ _ => Ok (Rejects (Error "Database is unavailable"))).

(** The session manager was never created ([sessionManager] is still
    [undefined]): every call on it is a [TypeError]. *)
Definition uninitialised : Env :=
  envFull (fun _ binary => if binary then Binary "{}" else Text "{}")
          (fun _ _ _ => None)
          (fun _ _ _ _ _ =>
             Throw (TypeError
               "Cannot read properties of undefined (reading 'addSession')"))
          (fun _ _ _ _ _ =>
             Throw (TypeError
               "Cannot read properties of undefined (reading 'handleRequest')"))
          (fun _ _ _ =>
             Some (TypeError "Cannot read properties of undefined (reading 'close')"))
          (fun _ _ _ => Ok (ModelArray [VNum 1])).

(** As [env], but [loadModel] answers with a [LoadModelResponse]. *)
Definition responding : Env :=
  envFull (fun _ binary => if binary then Binary "{}" else Text "{}")
          (fun _ _ _ => None)
          (fun _ _ t _ _ => Ok (CRSession (Some session1) (workspace_name t)))
          (fun _ _ _ _ _ => Ok Fulfils)
          (fun _ _ _ => None)
          (fun _ _ _ => Ok (ModelResponse [VNum 2; VStr "tx"] "hash" true)).

(** A runtime that holds no websocket, and the actor freshly constructed
    on it. *)
Definition host : State :=
  {| workspace := ""; sessions := ∅; autoResponse := None; webSockets := [];
     readyStates := ∅; closedSockets := ∅; nextId := 0; trace := [] |}.

Definition start : State := constructor env host.

Definition request (path : string) : Request :=
  {| url := path; CF_Connecting_IP := None; user_agent := None;
     accept_language := None |}.

(** The actor after a first connection for workspace [w1] was established
    on websocket 1, and the registry entry that connection got. *)
Definition established : State := (fetch env (request "/w1") start).2.

Definition socket1 : ConnectionSocket :=
  {| cs_id := 2; cs_ws := Some 1;
     cs_data := Some {| remoteAddress := ""; userAgent := ""; language := "";
                        cd_email := "user@example.com";
                        cd_mode := VUndefined; cd_model := VUndefined |} |}.

Definition entry1 : WebsocketData :=
  {| connectionSocket := Some socket1; payload := tokenFor "w1"; token := "w1";
     wd_session := CRSession (Some session1) "w1"; wd_url := "" |}.

(** Three established connections, on websockets 1, 4 and 7, the second of
    which was closed since. *)
Definition three : State :=
  (handleClose env 4 1000 None
     (fetch env (request "/w1")
        (fetch env (request "/w1") established).2).2).2.

(** As [env], but admission answers with an error that ends the
    connection. *)
Definition rejecting : Env :=
  envWith (fun _ _ _ => None)
          (fun _ _ _ _ _ => Ok (CRError (Error "Forbidden") (Some true)))
          (fun _ _ _ _ _ => Ok Fulfils).

End Demo.

(** ** Vocabulary of the statements *)

(** The [sessionManager.close] calls of a trace. *)
Definition cleanups (evs : list Event) : list (option ConnectionSocket) :=
  flat_map (fun e => match e with EvSmClose cs _ => [cs] | _ => [] end) evs.

(** The [ws.close] calls of a trace, whether they returned or threw. *)
Definition closeCalls (evs : list Event)
  : list (nat * option Z * option string) :=
  flat_map (fun e => match e with
                     | EvWsClose ws c r | EvWsCloseFailed ws c r _ => [(ws, c, r)]
                     | _ => []
                     end) evs.

(** The [ws.send] calls of a trace, whether they returned or threw. *)
Definition sends (evs : list Event) : list (nat * Frame) :=
  flat_map (fun e => match e with
                     | EvWsSend ws f | EvWsSendFailed ws f _ => [(ws, f)]
                     | _ => []
                     end) evs.

(** The websockets on which a [ws.send] threw. *)
Definition failedSends (evs : list Event) : list nat :=
  flat_map (fun e => match e with EvWsSendFailed ws _ _ => [ws] | _ => [] end) evs.

(** The requests handed to [sessionManager.handleRequest]. *)
Definition dispatches (evs : list Event) : list RpcRequest :=
  flat_map (fun e => match e with EvHandleRequest _ _ rq _ => [rq] | _ => [] end) evs.

(** The buffers handed to the RPC codec for decoding. *)
Definition codecReads (evs : list Event) : list string :=
  flat_map (fun e => match e with EvRpcRead b _ => [b] | _ => [] end) evs.

(** The close call the actor makes after a failed send. *)
Definition errorClose (ws : nat) : nat * option Z * option string :=
  (ws, Some 1011%Z, Some "error").

(** What a run of sends [r] leaves behind, relative to the state it started
    in and the websockets it was asked to write to: one write per target;
    for each websocket whose write threw, the error close, no registry entry
    any more and the cleanup call for the entry it had; nothing else closed,
    removed or released; and no error but one of [sessionManager.close]. *)
Definition fanout_post (E : Env) (s : State) (r : Outcome unit * State)
  (f : Frame) (targets : list nat) (evs : list Event) : Prop :=
  trace r.2 = trace s ++ evs
  ∧ sends evs = map (fun ws => (ws, f)) targets
  ∧ closeCalls evs = map errorClose (failedSends evs)
  ∧ (∀ w, w ∈ failedSends evs → w ∈ targets)
  ∧ (∀ w, w ∈ failedSends evs → sessions r.2 !! w = None)
  ∧ (∀ w d, w ∈ failedSends evs → sessions s !! w = Some d →
            connectionSocket d ∈ cleanups evs)
  ∧ (∀ c, c ∈ cleanups evs →
       ∃ ws d, ws ∈ failedSends evs ∧ sessions s !! ws = Some d
               ∧ c = connectionSocket d)
  ∧ (∀ w d, sessions r.2 !! w = Some d → sessions s !! w = Some d)
  ∧ webSockets r.2 = webSockets s
  ∧ (∀ w, w ∉ failedSends evs →
       sessions r.2 !! w = sessions s !! w ∧ readyState r.2 w = readyState s w)
  ∧ (failedSends evs = [] → r.1 = Ok tt)
  ∧ (∀ e, r.1 = Throw e → ∃ h c w, sm_close E h c w = Some e).

(** The connection socket [handleSession] creates in state [s]. *)
Definition newSocket (s : State) (ws : nat) (request : Request) (t : Token)
  : ConnectionSocket :=
  {| cs_id := nextId s; cs_ws := Some ws;
     cs_data := Some (sessionData request t) |}.

(** What the session manager answers to the [addSession] call that
    [handleSession] makes in state [s]. *)
Definition admission (E : Env) (s : State) (ws : nat) (request : Request)
  (t : Token) (rawToken : string) (sid : option string) : Outcome ConnectResult :=
  sm_addSession E (trace s ++ [EvLog "New session attempt"; EvAccept ws])
    (newSocket s ws request t) t rawToken sid.

(** The discard-everything socket a bridge call creates in state [s]. *)
Definition ephemeralSocket (s : State) : ConnectionSocket :=
  {| cs_id := nextId s; cs_ws := None; cs_data := None |}.

(** What the session manager answers to the [addSession] call of a bridge
    call started in [s]: for the ephemeral socket, with a generated session
    id. *)
Definition bridgeAdmission (E : Env) (s : State) (rawToken : string) (t : Token)
  : Outcome ConnectResult :=
  sm_addSession E (trace s) (ephemeralSocket s) t rawToken
    (Some (genId E (S (nextId s)))).

(** [String(e)] of a thrown error, as [Error.prototype.toString] gives it:
    the name, a colon and the message, or the one of the two that is not
    empty. *)
Definition errorText (e : Err) : string :=
  match err_name e, err_message e with
  | EmptyString, message => message
  | name, EmptyString => name
  | name, message => name +:+ ": " +:+ message
  end.

(** How a call ends whose last step is the cleanup call: with its own
    result when the cleanup returned, with the cleanup's error when it
    threw. *)
Definition released {A} (a : A) (closed : option Err) : Outcome A :=
  match closed with
  | None => Ok a
  | Some e => Throw e
  end.

(** The same for a result that may itself be an error. *)
Definition released' {A} (r : Outcome A) (closed : option Err) : Outcome A :=
  match closed with
  | None => r
  | Some e => Throw e
  end.

(** What every bridge call guarantees about its result [r], started in [s]
    with [rawToken].  The trace ends with the one [sessionManager.close]
    call, for the ephemeral socket, and the registry is as before.  When that
    call returns, the bridge returns a value [v], which is an answer of the
    pipeline or a captured error [{error: String(e)}]: that of [decodeToken]
    when the token does not verify, and the bridge's own for a workspace that
    is upgrading and for an admission without a session.  When that call
    throws, the bridge raises its error. *)
Definition bridge_post (E : Env) (s : State) (rawToken : string)
  (answer : Value -> Prop) (r : Outcome Value * State) : Prop :=
  ∃ h v,
    trace r.2 = h ++ [EvSmClose (Some (ephemeralSocket s)) (workspace r.2)]
    ∧ (∃ evs, h = trace s ++ evs ∧ cleanups evs = [])
    ∧ sessions r.2 = sessions s
    ∧ r.1 = released v (sm_close E h (Some (ephemeralSocket s)) (workspace r.2))
    ∧ (answer v ∨ ∃ e, v = VObj [("error", VStr (errorText e))])
    ∧ (∀ e, decodeToken E rawToken = Throw e →
            v = VObj [("error", VStr (errorText e))])
    ∧ (∀ t info, decodeToken E rawToken = Ok t →
                 bridgeAdmission E s rawToken t = Ok (CRUpgrade info) →
                 v = VObj [("error", VStr "Error: Workspace is upgrading")])
    ∧ (∀ t w, decodeToken E rawToken = Ok t →
              bridgeAdmission E s rawToken t = Ok (CRSession None w) →
              v = VObj [("error", VStr "Error: No session")]).

(** [getModel], called in state [s], returned [blob], and the [loadModel]
    call it made was answered with the transactions [txes]. *)
Definition served (E : Env) (rawToken : string) (s : State) (blob : string)
  (txes : list Value) : Prop :=
  (getModel E rawToken s).1 = Ok (ReplyBlob blob)
  ∧ ∃ h p loaded,
      trace (getModel E rawToken s).2 =
        h ++ [EvLoadModel p 0;
              EvSmClose (Some (ephemeralSocket s))
                (workspace (getModel E rawToken s).2)]
      ∧ pipeline_loadModel E h p 0 = Ok loaded
      ∧ txes = match loaded with
               | ModelArray txes => txes
               | ModelResponse transactions _ _ => transactions
               end.

(** Data that [JSON.parse(JSON.stringify(v))] gives back: nothing in it is
    [undefined], and no object has a key twice. *)
Fixpoint jsonData (v : Value) : Prop :=
  match v with
  | VUndefined => False
  | VNull | VBool _ | VNum _ | VStr _ => True
  | VArr items =>
      (fix all l := match l with
                    | [] => True
                    | x :: rest => jsonData x ∧ all rest
                    end) items
  | VObj fields =>
      NoDup (map fst fields)
      ∧ (fix all l := match l with
                      | [] => True
                      | (_, x) :: rest => jsonData x ∧ all rest
                      end) fields
  end.

(** Once the actor is bound, the later state has the same binding. *)
Definition stays_bound (s s' : State) : Prop :=
  workspace s ≠ "" → workspace s' = workspace s.

Definition same_workspace (s s' : State) : Prop := workspace s' = workspace s.

(** The operations that can bind the workspace: [fetch], and the bridge
    calls, which go through [makeRpcSession]. *)
Definition binds (op : Op) : bool :=
  match op with
  | OpFetch _ | OpFindAll _ _ _ _ _ | OpTx _ _ _ | OpGetModel _ | OpGetAccount _ =>
      true
  | _ => false
  end.

(** The binding an unbound actor takes from a token; a bound actor keeps
    its own. *)
Definition bound_to (s : State) (t : Token) : string :=
  if String.eqb (workspace s) "" then workspace_name t else workspace s.

Definition same_autoResponse (s s' : State) : Prop :=
  autoResponse s' = autoResponse s.

(** The operation [m] takes every state to one related to it by [R]. *)
Definition keeps (R : State -> State -> Prop) {A} (m : M A) : Prop :=
  ∀ s, R s (m s).2.

(** The registry entry [handleSession] stores for an established session. *)
Definition entryFor (s : State) (ws : nat) (request : Request) (t : Token)
  (rawToken : string) (sess : Session) (workspaceId : string) : WebsocketData :=
  {| connectionSocket := Some (newSocket s ws request t);
     payload := t; token := rawToken;
     wd_session := CRSession (Some sess) workspaceId; wd_url := "" |}.

(** The close the actor makes when a session cannot be established. *)
Definition failedClose (ws : nat) : nat * option Z * option string :=
  (ws, Some 4003%Z, Some "Session establishment failed").

(** The transport of [ws] takes every close. *)
Definition closes_quietly (E : Env) (ws : nat) : Prop :=
  ∀ h c r, ws_close E h ws c r = None.

(** The state [fetch] is in once [new WebSocketPair()] returned: two more
    websockets, the client end [nextId s] and the server end [S (nextId s)],
    both open. *)
Definition afterPair (s : State) : State :=
  set_readyStates
    (<[S (nextId s) := OPEN]> (<[nextId s := OPEN]> (readyStates s)))
    (set_nextId (S (S (nextId s))) s).

(** ... and once the token [t] was decoded and the workspace bound. *)
Definition handshaken (s : State) (t : Token) : State :=
  if String.eqb (workspace s) "" then set_workspace (workspace_name t) (afterPair s)
  else afterPair s.

Definition switching (client : nat) : Response :=
  {| status := 101; webSocket := Some client |}.

Definition notFound : Response := {| status := 404; webSocket := None |}.

(** A registry entry as [handleSession] stores them under [ws]: it holds a
    connection socket that writes to [ws], and an established session. *)
Definition wf_entry (ws : nat) (d : WebsocketData) : Prop :=
  ∃ cs sess workspaceId,
    connectionSocket d = Some cs ∧ cs_ws cs = Some ws
    ∧ wd_session d = CRSession (Some sess) workspaceId.

Definition registry_wf (s : State) : Prop :=
  ∀ ws d, sessions s !! ws = Some d → wf_entry ws d.

(** The registry of [s'] holds entries of [s] and well-formed new ones. *)
Definition registry_grows_wf (s s' : State) : Prop :=
  ∀ ws d, sessions s' !! ws = Some d → sessions s !! ws = Some d ∨ wf_entry ws d.

(** The session's pipeline is [p], at once or after the wait. *)
Definition resolves (sess : Session) (p : nat) : Prop :=
  workspace_pipeline sess = Resolved p ∨ workspace_pipeline sess = Pending (Ok p).

(** What a bridge call makes of the pipeline's answer: the answer, or the
    error as [{error: String(e)}]. *)
Definition captured (r : Outcome Value) : Value :=
  match r with
  | Ok v => v
  | Throw e => VObj [("error", VStr (errorText e))]
  end.

(** The upgrading message of the property:
    [{ id: -1, result: { state: 'upgrading', stats } }]. *)
Definition upgradingNotice (stats : Value) : Value :=
  VObj [("id", VNum (-1));
        ("result", VObj [("state", VStr "upgrading"); ("stats", stats)])].

(** The transport of [ws] takes every write. *)
Definition sends_quietly (E : Env) (ws : nat) : Prop :=
  ∀ h f, ws_send E h ws f = None.

(** ** Reading a trace that was extended *)

Lemma cleanups_app (a b : list Event) : cleanups (a ++ b) = cleanups a ++ cleanups b.
Proof. apply flat_map_app. Qed.

Lemma closeCalls_app (a b : list Event) :
  closeCalls (a ++ b) = closeCalls a ++ closeCalls b.
Proof. apply flat_map_app. Qed.

Lemma sends_app (a b : list Event) : sends (a ++ b) = sends a ++ sends b.
Proof. apply flat_map_app. Qed.

Lemma failedSends_app (a b : list Event) :
  failedSends (a ++ b) = failedSends a ++ failedSends b.
Proof. apply flat_map_app. Qed.

Lemma dispatches_app (a b : list Event) :
  dispatches (a ++ b) = dispatches a ++ dispatches b.
Proof. apply flat_map_app. Qed.

Lemma codecReads_app (a b : list Event) :
  codecReads (a ++ b) = codecReads a ++ codecReads b.
Proof. apply flat_map_app. Qed.

Create Rewrite HintDb trace_app.
#[export] Hint Rewrite cleanups_app closeCalls_app sends_app failedSends_app
  dispatches_app codecReads_app : trace_app.

(** ** Running a handler symbolically *)

Ltac simpl_state :=
  cbn [fst snd trace sessions workspace autoResponse webSockets readyStates
       closedSockets nextId set_trace set_sessions set_workspace
       set_autoResponse set_webSockets set_readyStates set_closedSockets
       set_nextId cs_id cs_ws cs_data] in *.

(** The monad's operations and the calls to the collaborators, unfolded when
    a handler is run symbolically. *)
Create HintDb handler.
#[export] Hint Unfold bind ret throw try_catch try_finally get modify emit
  console_log console_error measure Date_now generateId ws_send_op ws_close_op
  new_WebSocketPair acceptWebSocket getWebSockets rpcHandler_readRequest
  rpcHandler_serialize decodeToken_op sessionManager_addSession
  sessionManager_close sessionManager_handleRequest await_pipeline
  includeSessionContext_op pipeline_findAll_op pipeline_tx_op
  pipeline_loadModel_op getRawAccount_op set_isClosed init_isClosed
  createWebsocketClientSocket createDummyClientSocket cs_close cs_send
  cs_sendPong cs_readRequest cs_checkState bind_workspace : handler.

(** Run the handler whose result hypothesis [H] names, as far as the
    collaborators' answers allow. *)
Ltac run_in H :=
  repeat (autounfold with handler in H; simpl_state);
  rewrite <- ?app_assoc in H; cbn [app] in H.

(** Case-split on an innermost [match] scrutinee of [H]. *)
Ltac split_match H :=
  match type of H with
  | context [match ?x with _ => _ end] =>
      lazymatch x with
      | context [match _ with _ => _ end] => fail
      | _ => let Hx := fresh "Hcase" in destruct x eqn:Hx
      end
  end.

(** ** Frame conditions of the message handler *)

(** C10.  A frame that arrives on a websocket with no registry entry, or
    whose entry holds no connection socket, is dropped: [webSocketMessage]
    returns at once without an error, and the actor's state, trace included
    (nothing dispatched, nothing measured), is the one it started from. *)
Theorem webSocketMessage_unregistered (E : Env) (s : State) (ws : nat)
  (message : Frame) :
  (sessions s !! ws = None ∨
   ∃ d, sessions s !! ws = Some d ∧ connectionSocket d = None) →
  webSocketMessage E ws message s = (Ok tt, s).
Proof.
  unfold webSocketMessage, bind, get, ret.
  intros [Hnone | (d & Hd & Hcs)].
  - now rewrite Hnone.
  - now rewrite Hd, Hcs.
Qed.

Lemma webSocketMessage_unregistered_witness :
  webSocketMessage Demo.env 7 (Text "hello") Demo.start = (Ok tt, Demo.start).
Proof.
  apply (webSocketMessage_unregistered Demo.env Demo.start 7 (Text "hello")).
  left. reflexivity.
Defined.

(** ** Dead sockets *)

Lemma dead_true (s : State) (ws : nat) (cs : ConnectionSocket) :
  readyState s ws ≠ OPEN ∨ cs_id cs ∈ closedSockets s → dead s ws cs = true.
Proof.
  unfold dead, isClosed. intros [Hne | Hin].
  - destruct (readyState s ws); try reflexivity. now destruct Hne.
  - rewrite (bool_decide_eq_true_2 _ Hin). apply orb_true_r.
Qed.

(** C8.  On a dead socket (the websocket is not OPEN, or the socket object
    was closed) [send] and [sendPong] write nothing to the transport and
    raise nothing: [send] only serialises and reports the size, [sendPong]
    does nothing at all, and neither touches the ready state or the
    [isClosed] flag, so the socket stays dead. *)
Theorem dead_socket_send_is_dropped (E : Env) (s : State)
  (cs : ConnectionSocket) (ws : nat) (msg : Value) (binary compression : bool) :
  cs_ws cs = Some ws →
  readyState s ws ≠ OPEN ∨ cs_id cs ∈ closedSockets s →
  cs_send E cs msg binary compression s =
    (Ok tt,
     set_trace (trace s ++ [EvRpcSerialize msg binary;
                            EvMeasure "send-data"
                              (frameLength (rpc_serialize E msg binary))]) s)
  ∧ cs_sendPong E cs s = (Ok tt, s)
  ∧ sends (trace (cs_send E cs msg binary compression s).2) = sends (trace s)
  ∧ readyStates (cs_send E cs msg binary compression s).2 = readyStates s
  ∧ closedSockets (cs_send E cs msg binary compression s).2 = closedSockets s.
Proof.
  intros Hws Hdead.
  assert (Hsend : cs_send E cs msg binary compression s =
    (Ok tt,
     set_trace (trace s ++ [EvRpcSerialize msg binary;
                            EvMeasure "send-data"
                              (frameLength (rpc_serialize E msg binary))]) s)).
  { unfold cs_send. rewrite Hws.
    unfold bind, rpcHandler_serialize, measure, emit, modify, get, ret, bind.
    cbn [trace set_trace fst snd].
    assert (Hd : dead (set_trace
      ((trace s ++ [EvRpcSerialize msg binary]) ++
       [EvMeasure "send-data" (frameLength (rpc_serialize E msg binary))])
      (set_trace (trace s ++ [EvRpcSerialize msg binary]) s)) ws cs = true)
      by (apply dead_true; exact Hdead).
    rewrite Hd. unfold set_trace; cbn. now rewrite <- app_assoc. }
  split; [exact Hsend |].
  split.
  - unfold cs_sendPong. rewrite Hws. unfold bind, get, ret.
    now rewrite (dead_true s ws cs Hdead).
  - rewrite Hsend. cbn. rewrite sends_app. cbn. now rewrite app_nil_r.
Qed.

Lemma dead_socket_send_is_dropped_witness :
  let s := (handleClose Demo.env 1 1000 None
              (fetch Demo.env (Demo.request "/w1") Demo.start).2).2 in
  let cs := {| cs_id := 2; cs_ws := Some 1; cs_data := None |} in
  readyState s 1 = CLOSING
  ∧ cs_send Demo.env cs (VStr "late") true false s =
      (Ok tt, set_trace (trace s ++ [EvRpcSerialize (VStr "late") true;
                                     EvMeasure "send-data" 2]) s)
  ∧ cs_sendPong Demo.env cs s = (Ok tt, s).
Proof.
  cbv zeta. split; [vm_compute; reflexivity |].
  pose proof (dead_socket_send_is_dropped Demo.env
    (handleClose Demo.env 1 1000 None
       (fetch Demo.env (Demo.request "/w1") Demo.start).2).2
    {| cs_id := 2; cs_ws := Some 1; cs_data := None |} 1 (VStr "late") true false
    eq_refl) as H.
  destruct H as (H1 & H2 & _).
  - left. vm_compute. discriminate.
  - split; [exact H1 | exact H2].
Defined.

(** ** Closing a connection *)

Lemma readyState_close_other (s : State) (ws ws' : nat) (r : ReadyState) :
  ws' ≠ ws → default CLOSED (<[ws := r]> (readyStates s) !! ws') = readyState s ws'.
Proof. intros Hne. unfold readyState. now rewrite lookup_insert_ne. Qed.

Lemma handleClose_spec (E : Env) (ws : nat) (code : Z) (reason : option string)
  (s : State) :
  let r := handleClose E ws code reason s in
  ∃ evs,
    trace r.2 = trace s ++ evs
    ∧ closeCalls evs = [(ws, Some code, reason)]
    ∧ sends evs = []
    ∧ cleanups evs = match sessions s !! ws with
                     | Some d => [connectionSocket d]
                     | None => []
                     end
    ∧ dispatches evs = []
    ∧ sessions r.2 = delete ws (sessions s)
    ∧ workspace r.2 = workspace s
    ∧ webSockets r.2 = webSockets s
    ∧ (∀ ws', ws' ≠ ws → readyState r.2 ws' = readyState s ws')
    ∧ match sessions s !! ws with
      | None => r.1 = Ok tt
      | Some d =>
          ∃ h, trace r.2 = h ++ [EvSmClose (connectionSocket d) (workspace s)]
               ∧ r.1 = released tt (sm_close E h (connectionSocket d) (workspace s))
      end.
Proof.
  cbv zeta.
  destruct (handleClose E ws code reason s) as [o s'] eqn:Hrun.
  unfold handleClose in Hrun. run_in Hrun.
  destruct (ws_close E _ ws (Some code) reason) as [e |]; run_in Hrun;
    (destruct (sessions s !! ws) as [d |] eqn:Hd; run_in Hrun;
     [destruct (sm_close E _ (connectionSocket d) (workspace s)) as [e' |] eqn:Hsm |];
     injection Hrun as <- <-; simpl_state;
     eexists; (split; [reflexivity |]);
     repeat split; try reflexivity;
     try (symmetry; apply delete_id; exact Hd);
     try (intros ws' Hne; apply readyState_close_other; exact Hne);
     try (eexists; split;
          [match goal with
           | |- ?pre ++ ?l = _ ++ [_] =>
               rewrite (app_removelast_last (EvLog "") (l := l)) at 1 by discriminate;
               rewrite app_assoc; reflexivity
           end
          | cbn [removelast last]; rewrite Hsm; reflexivity])).
Qed.

(** C5.  For a websocket with a registry entry, [handleClose] calls
    [ws.close] once with the given code and reason, deletes that one entry
    (the registry shrinks by exactly one) and calls [sessionManager.close]
    exactly once, for the entry's socket; that call is its last step, and
    [handleClose] returns when it returns and raises its error when it
    throws.  A second [handleClose] on the same websocket returns, leaves the
    registry as it is and makes no cleanup call. *)
Theorem handleClose_once (E : Env) (s : State) (ws : nat) (d : WebsocketData)
  (code code' : Z) (reason reason' : option string) :
  sessions s !! ws = Some d →
  let r1 := handleClose E ws code reason s in
  let r2 := handleClose E ws code' reason' r1.2 in
  (∃ h, trace r1.2 = h ++ [EvSmClose (connectionSocket d) (workspace s)]
        ∧ r1.1 = released tt (sm_close E h (connectionSocket d) (workspace s)))
  ∧ (∃ evs, trace r1.2 = trace s ++ evs
            ∧ closeCalls evs = [(ws, Some code, reason)]
            ∧ cleanups evs = [connectionSocket d])
  ∧ sessions r1.2 = delete ws (sessions s)
  ∧ S (size (sessions r1.2)) = size (sessions s)
  ∧ r2.1 = Ok tt
  ∧ sessions r2.2 = sessions r1.2
  ∧ (∃ evs, trace r2.2 = trace r1.2 ++ evs ∧ cleanups evs = []).
Proof.
  intros Hd r1 r2.
  destruct (handleClose_spec E ws code reason s)
    as (evs1 & Htr1 & Hcl1 & _ & Hcu1 & _ & Hse1 & _ & _ & _ & Hres1).
  destruct (handleClose_spec E ws code' reason' r1.2)
    as (evs2 & Htr2 & _ & _ & Hcu2 & _ & Hse2 & _ & _ & _ & Hres2).
  fold r1 in Htr1, Hse1, Hres1. fold r2 in Htr2, Hse2, Hres2.
  rewrite Hd in Hcu1, Hres1.
  assert (Hgone : sessions r1.2 !! ws = None)
    by (rewrite Hse1; apply lookup_delete_eq).
  rewrite Hgone in Hcu2, Hres2.
  split; [exact Hres1 |].
  split; [exists evs1; auto |].
  split; [exact Hse1 |].
  split.
  { rewrite Hse1. rewrite <- (insert_delete_id (sessions s) ws d Hd) at 2.
    rewrite map_size_insert_None; [reflexivity | apply lookup_delete_eq]. }
  split; [exact Hres2 |].
  split; [rewrite Hse2; now apply delete_id |].
  exists evs2. auto.
Qed.

Lemma handleClose_once_witness :
  let r1 := handleClose Demo.env 1 1000 (Some "bye") Demo.established in
  let r2 := handleClose Demo.env 1 1000 (Some "bye") r1.2 in
  sessions Demo.established !! 1 = Some Demo.entry1
  ∧ S (size (sessions r1.2)) = size (sessions Demo.established)
  ∧ sessions r2.2 = sessions r1.2.
Proof.
  cbv zeta.
  assert (H : sessions Demo.established !! 1 = Some Demo.entry1)
    by (vm_compute; reflexivity).
  split; [exact H |].
  destruct (handleClose_once Demo.env Demo.established 1 Demo.entry1
              1000 1000 (Some "bye") (Some "bye") H)
    as (_ & _ & _ & Hsz & _ & Hsame & _).
  split; [exact Hsz | exact Hsame].
Defined.

(** ** Broadcast *)

Lemma sends_nil_failedSends (evs : list Event) :
  sends evs = [] → failedSends evs = [].
Proof.
  induction evs as [| ev evs IH]; [reflexivity |].
  destruct ev; cbn; try discriminate; auto.
Qed.

Lemma released_Throw {A} (a : A) (closed : option Err) (e : Err) :
  released a closed = Throw e → closed = Some e.
Proof. destruct closed; cbn; congruence. Qed.

Lemma sendMessage_spec (E : Env) (ws : nat) (f : Frame) (s : State) :
  ∃ evs, fanout_post E s (sendMessage E ws f s) f [ws] evs.
Proof.
  unfold fanout_post, sendMessage, try_catch, ws_send_op.
  destruct (ws_send E (trace s) ws f) as [e |] eqn:Hsend.
  - unfold bind, console_error, emit, modify. simpl_state.
    set (s1 := set_trace _ _).
    destruct (handleClose_spec E ws 1011 (Some "error") s1)
      as (evs & Htr & Hcl & Hsn & Hcu & _ & Hse & _ & Hwk & Hrs & Hres).
    destruct (handleClose E ws 1011 (Some "error") s1) as [o s'] eqn:Hrun.
    simpl_state.
    exists ([EvWsSendFailed ws f e; EvError "Failed to send message:" (Some e)]
            ++ evs).
    assert (Hs1 : sessions s1 = sessions s) by reflexivity.
    assert (Hr1 : ∀ w, readyState s1 w = readyState s w) by reflexivity.
    assert (Hfs : failedSends evs = []) by (now apply sends_nil_failedSends).
    rewrite Hs1 in Hcu, Hres.
    autorewrite with trace_app. rewrite Hfs, Hsn, Hcl. cbn [app failedSends sends
      closeCalls cleanups flat_map map].
    split; [rewrite Htr; subst s1; simpl_state; now rewrite <- !app_assoc |].
    split; [reflexivity |].
    split; [reflexivity |].
    split; [auto |].
    split.
    { intros w Hw. apply list_elem_of_singleton in Hw as ->.
      rewrite Hse, Hs1. apply lookup_delete_eq. }
    split.
    { intros w d Hw Hd. apply list_elem_of_singleton in Hw as ->.
      rewrite Hcu, Hd. now apply list_elem_of_singleton. }
    split.
    { intros c Hc. rewrite Hcu in Hc.
      destruct (sessions s !! ws) as [d |] eqn:Hd.
      - exists ws, d. apply list_elem_of_singleton in Hc.
        split; [now apply list_elem_of_singleton | auto].
      - now apply not_elem_of_nil in Hc. }
    split.
    { intros w d. rewrite Hse, Hs1. intros Hw.
      apply lookup_delete_Some in Hw. tauto. }
    split; [exact Hwk |].
    split.
    { intros w Hw. assert (Hne : w ≠ ws)
        by (intros ->; apply Hw; now apply list_elem_of_singleton).
      split; [rewrite Hse, Hs1; now apply lookup_delete_ne |].
      rewrite <- Hr1. now apply Hrs. }
    split; [discriminate |].
    intros e' He'.
    destruct (sessions s !! ws) as [d |]; [| rewrite Hres in He'; discriminate].
    destruct Hres as (h & _ & Hres). rewrite Hres in He'.
    apply released_Throw in He'. eauto.
  - simpl_state. exists [EvWsSend ws f]. cbn.
    repeat split; auto; try discriminate.
    all: try (intros w Hw; now apply not_elem_of_nil in Hw).
    all: try (intros w d Hw; now apply not_elem_of_nil in Hw).
Qed.

Lemma Promise_all_map_sendMessage (E : Env) (f : Frame) (l : list nat) :
  ∀ s, ∃ evs,
    fanout_post E s (Promise_all_map (fun ws => sendMessage E ws f) l s) f l evs.
Proof.
  induction l as [| x rest IH]; intros s.
  - exists []. unfold fanout_post. cbn. rewrite app_nil_r.
    repeat split; auto; try discriminate.
    all: try (intros w Hw; now apply not_elem_of_nil in Hw).
    all: try (intros w d Hw; now apply not_elem_of_nil in Hw).
  - cbn [Promise_all_map].
    destruct (sendMessage_spec E x f s)
      as (e1 & Htr & Hsn & Hcl & Hfail & Hgone & Hrel & Hcu & Hshr & Hwk & Hfr
          & Hok & Herr).
    destruct (sendMessage E x f s) as [o s1] eqn:Hrun. simpl_state.
    destruct (IH s1)
      as (e2 & Htr2 & Hsn2 & Hcl2 & Hfail2 & Hgone2 & Hrel2 & Hcu2 & Hshr2
          & Hwk2 & Hfr2 & Hok2 & Herr2).
    set (r2 := Promise_all_map (fun ws => sendMessage E ws f) rest s1) in *.
    exists (e1 ++ e2). unfold fanout_post.
    assert (Hst : (match o with
                   | Ok _ => r2
                   | Throw e => (Throw e, r2.2)
                   end).2 = r2.2) by (now destruct o).
    match goal with
    | |- context [match ?o' with Ok _ => _ | Throw e => _ end] =>
        change (match o' with Ok _ => _ | Throw e => _ end)
          with (match o with Ok _ => r2 | Throw e => (Throw e, r2.2) end)
    end.
    rewrite Hst. autorewrite with trace_app.
    split; [rewrite Htr2, Htr; now rewrite app_assoc |].
    split; [rewrite Hsn, Hsn2; reflexivity |].
    split; [rewrite Hcl, Hcl2; now rewrite map_app |].
    split.
    { intros w Hw. apply elem_of_app in Hw as [Hw | Hw].
      - apply Hfail in Hw. apply list_elem_of_singleton in Hw as ->. left.
      - right. now apply Hfail2. }
    split.
    { intros w Hw. apply elem_of_app in Hw as [Hw | Hw]; [| now apply Hgone2].
      destruct (sessions r2.2 !! w) as [d |] eqn:Hd; [| reflexivity].
      apply Hshr2 in Hd. rewrite (Hgone w Hw) in Hd. discriminate. }
    split.
    { intros w d Hw Hd. apply elem_of_app.
      destruct (decide (w ∈ failedSends e1)) as [Hin | Hout].
      - left. now apply (Hrel w d).
      - apply elem_of_app in Hw as [Hw | Hw]; [contradiction |].
        right. apply (Hrel2 w d Hw).
        destruct (Hfr w Hout) as [-> _]. exact Hd. }
    split.
    { intros c Hc. apply elem_of_app in Hc as [Hc | Hc].
      - destruct (Hcu c Hc) as (ws & d & Hin & Hd & ->).
        exists ws, d. split; [apply elem_of_app; now left | auto].
      - destruct (Hcu2 c Hc) as (ws & d & Hin & Hd & ->).
        exists ws, d. split; [apply elem_of_app; now right | auto]. }
    split; [intros w d Hw; apply Hshr, Hshr2, Hw |].
    split; [now rewrite Hwk2 |].
    split.
    { intros w Hw.
      destruct (Hfr2 w) as [-> ->];
        [intros Hin; apply Hw; apply elem_of_app; now right |].
      apply Hfr. intros Hin; apply Hw; apply elem_of_app; now left. }
    split.
    { intros Hnil. apply app_eq_nil in Hnil as [Hn1 Hn2].
      rewrite (Hok Hn1). now apply Hok2. }
    intros e He. destruct o as [u | e0].
    + now apply Herr2.
    + cbn in He. injection He as <-. apply (Herr e0). reflexivity.
Qed.

(** C4.  [broadcastMessage] writes the message once to each websocket that
    is OPEN when it is called, in turn, and to no other: N open sockets get N
    sends, whatever the earlier sends did.  A websocket whose send threw goes
    through the close path: it is closed with 1011 / "error", it has no
    registry entry afterwards, and the cleanup call for the entry it had was
    made.  Nothing else is closed or released: the only [ws.close] calls are
    those error closes, every cleanup call is for the entry of a socket whose
    send threw, and a socket whose send did not throw keeps its registry
    entry and its ready state.  The broadcast returns when no send threw, and
    the only error it can raise is one of [sessionManager.close]; the sends
    to the other sockets are made even then. *)
Theorem broadcastMessage_fanout (E : Env) (s : State) (message : string) :
  let r := broadcastMessage E message s in
  let targets :=
    List.filter (fun ws => match readyState s ws with OPEN => true | _ => false end)
      (webSockets s) in
  ∃ evs,
    trace r.2 = trace s ++ [EvLog "broadcast"] ++ evs
    ∧ sends evs = map (fun ws => (ws, Binary message)) targets
    ∧ length (sends evs) = length targets
    ∧ closeCalls evs = map errorClose (failedSends evs)
    ∧ (∀ w, w ∈ failedSends evs →
         sessions r.2 !! w = None
         ∧ ∀ d, sessions s !! w = Some d → connectionSocket d ∈ cleanups evs)
    ∧ (∀ c, c ∈ cleanups evs →
         ∃ ws d, ws ∈ failedSends evs ∧ sessions s !! ws = Some d
                 ∧ c = connectionSocket d)
    ∧ (∀ w, w ∉ failedSends evs →
         sessions r.2 !! w = sessions s !! w
         ∧ readyState r.2 w = readyState s w)
    ∧ (failedSends evs = [] → r.1 = Ok tt)
    ∧ (∀ e, r.1 = Throw e → ∃ h c w, sm_close E h c w = Some e).
Proof.
  intros r targets. subst r.
  unfold broadcastMessage, bind, console_log, emit, modify, getWebSockets, get.
  simpl_state.
  set (s1 := set_trace (trace s ++ [EvLog "broadcast"]) s).
  assert (Htargets : List.filter (isOpen s1) (webSockets s) = targets).
  { subst targets. apply filter_ext. intros ws. unfold isOpen.
    change (readyState s1 ws) with (readyState s ws).
    now destruct (readyState s ws). }
  rewrite Htargets.
  destruct (Promise_all_map_sendMessage E (Binary message) targets s1)
    as (evs & Htr & Hsn & Hcl & _ & Hgone & Hrel & Hcu & _ & _ & Hfr & Hok & Herr).
  exists evs.
  split; [rewrite Htr; subst s1; simpl_state; now rewrite <- app_assoc |].
  split; [exact Hsn |].
  split; [rewrite Hsn; now rewrite length_map |].
  split; [exact Hcl |].
  split; [intros w Hw; split; [now apply Hgone | intros d; now apply Hrel] |].
  split; [exact Hcu |].
  split; [exact Hfr |].
  split; [exact Hok | exact Herr].
Qed.

Lemma broadcastMessage_fanout_witness :
  let r := broadcastMessage Demo.flaky "m" Demo.three in
  webSockets Demo.three = [1; 4; 7]
  ∧ readyState Demo.three 4 = CLOSING
  ∧ sessions Demo.three !! 1 = Some Demo.entry1
  ∧ r.1 = Ok tt
  ∧ sends (trace r.2) = [(1, Binary "m"); (7, Binary "m")]
  ∧ failedSends (trace r.2) = [1]
  ∧ closeCalls (trace r.2) = [(4, Some 1000%Z, None); errorClose 1]
  ∧ cleanups (trace r.2) =
      [Some {| cs_id := 5; cs_ws := Some 4; cs_data := cs_data Demo.socket1 |};
       Some Demo.socket1]
  ∧ sessions r.2 !! 1 = None
  ∧ sessions r.2 !! 7 = sessions Demo.three !! 7
  ∧ readyState r.2 7 = OPEN.
Proof.
  cbv zeta.
  destruct (broadcastMessage_fanout Demo.flaky Demo.three "m")
    as (evs & Htr & Hsn & _ & Hcl & Hgone & _ & _ & _ & Herr).
  split; [vm_compute; reflexivity |].
  split; [vm_compute; reflexivity |].
  split; [vm_compute; reflexivity |].
  split.
  { destruct (broadcastMessage Demo.flaky "m" Demo.three).1 as [[] | e] eqn:Hres;
      [reflexivity |].
    destruct (Herr e eq_refl) as (h & c & w & Hbad). discriminate Hbad. }
  split; [vm_compute; reflexivity |].
  assert (Hfailed : failedSends (trace (broadcastMessage Demo.flaky "m"
                                          Demo.three).2) = [1])
    by (vm_compute; reflexivity).
  split; [exact Hfailed |].
  split; [vm_compute; reflexivity |].
  split; [vm_compute; reflexivity |].
  split.
  { apply Hgone.
    assert (Hevs : failedSends evs = [1]).
    { rewrite Htr in Hfailed. autorewrite with trace_app in Hfailed.
      exact Hfailed. }
    rewrite Hevs. now apply list_elem_of_singleton. }
  split; vm_compute; reflexivity.
Defined.

(** ** Admission while the workspace is upgrading *)

(** C6, amended.  When admission answers "upgrading", [handleSession] adds
    no registry entry and writes at most one frame, the serialised message
    [{id: -1, result: {state: 'upgrading', stats}}].  On a websocket that is
    OPEN and whose transport takes the write and the close, the trace is
    exactly: the admission call, that one message sent to the client, the
    close of the socket; and the handler returns [true].  When the transport
    throws on the write, nothing reaches the client: the websocket is closed
    with 4003 / "Session establishment failed" and the handler raises (the
    error of the write, or that of the close when it throws too).  On a
    websocket that is not OPEN nothing is written at all. *)
Theorem handleSession_upgrading (E : Env) (s : State) (ws : nat)
  (request : Request) (t : Token) (rawToken : string) (sid : option string)
  (upgradeInfo : Value) :
  admission E s ws request t rawToken sid = Ok (CRUpgrade upgradeInfo) →
  let r := handleSession E ws request t rawToken sid s in
  let cs := newSocket s ws request t in
  let message :=
    VObj [("id", VNum (-1));
          ("result", VObj [("state", VStr "upgrading"); ("stats", upgradeInfo)])] in
  let frame := rpc_serialize E message false in
  let asked := trace s ++
    [EvLog "New session attempt"; EvAccept ws; EvAddSession cs t rawToken sid;
     EvRpcSerialize message false; EvMeasure "send-data" (frameLength frame)] in
  sessions r.2 = sessions s
  ∧ (∃ evs, trace r.2 = trace s ++ evs
            ∧ (sends evs = [] ∨ sends evs = [(ws, frame)]))
  ∧ (readyState s ws = OPEN →
     ws_send E asked ws frame = None →
     ws_close E (asked ++ [EvWsSend ws frame]) ws None None = None →
     r.1 = Ok true
     ∧ trace r.2 = asked ++ [EvWsSend ws frame; EvWsClose ws None None]
     ∧ readyState r.2 ws = CLOSING
     ∧ cs_id cs ∈ closedSockets r.2)
  ∧ (readyState s ws = OPEN →
     ∀ e, ws_send E asked ws frame = Some e →
       let failed := asked ++ [EvWsSendFailed ws frame e;
                               EvError "Failed to establish session:" (Some e)] in
       let closed := ws_close E failed ws (Some 4003%Z)
                       (Some "Session establishment failed") in
       r.1 = Throw (default e closed)
       ∧ ∃ ev, trace r.2 = failed ++ [ev]
               ∧ closeCalls [ev] = [(ws, Some 4003%Z,
                                     Some "Session establishment failed")])
  ∧ (readyState s ws ≠ OPEN →
     ∃ evs, trace r.2 = trace s ++ evs ∧ sends evs = []).
Proof.
  unfold admission, newSocket. intros Hadm. cbv zeta.
  destruct (handleSession E ws request t rawToken sid s) as [o s'] eqn:Hrun.
  unfold handleSession, upgradingMessage in Hrun. run_in Hrun.
  rewrite Hadm in Hrun. run_in Hrun.
  repeat (split_match Hrun; run_in Hrun).
  all: injection Hrun as <- <-; simpl_state.
  all: split; [reflexivity |].
  all: split;
    [eexists; split; [rewrite <- ?app_assoc; cbn [app]; reflexivity | cbn; auto] |].
  all: assert (Hfresh : ∀ st : State,
         readyState st ws = OPEN →
         closedSockets st = closedSockets s ∖ {[nextId s]} →
         dead st ws {| cs_id := nextId s; cs_ws := Some ws;
                       cs_data := Some (sessionData request t) |} = false)
    by (intros st Hopen Hset; unfold dead, isClosed; rewrite Hopen, Hset; cbn;
        apply bool_decide_eq_false_2; intros Hin;
        apply elem_of_difference in Hin as [_ Hnot]; apply Hnot;
        now apply elem_of_singleton).
  all: assert (Hstale : ∀ st : State,
         readyState st ws ≠ OPEN →
         dead st ws {| cs_id := nextId s; cs_ws := Some ws;
                       cs_data := Some (sessionData request t) |} = true)
    by (intros st Hne; apply dead_true; now left).
  all: split; [intros Hopen Hsend Hclose; rewrite <- ?app_assoc in Hclose;
               cbn [app] in Hclose
              | split; [intros Hopen err Hsend | intros Hclosed]].
  all: try (rewrite Hfresh in Hcase by (first [exact Hopen | reflexivity]);
            discriminate Hcase).
  all: try (rewrite Hstale in Hcase by exact Hclosed; discriminate Hcase).
  all: try congruence.
  all: try (eexists; split; [rewrite <- ?app_assoc; cbn [app]; reflexivity
                            | reflexivity]).
  all: cbv zeta.
  all: try (rewrite Hsend in *; match goal with
            | H : Some _ = Some _ |- _ => injection H as <-
            end).
  all: rewrite <- ?app_assoc; cbn [app].
  all: repeat match goal with
       | H : ws_close _ _ _ _ _ = _ |- _ => rewrite H
       end; cbn [default].
  all: try (split; [reflexivity |]; eexists;
            split; [rewrite <- ?app_assoc; cbn [app]; reflexivity | reflexivity]).
  repeat split.
  - unfold readyState in *. simpl_state.
    rewrite lookup_insert_eq. cbn. now rewrite Hopen.
  - apply elem_of_union. left. now apply elem_of_singleton.
Qed.

Lemma handleSession_upgrading_witness :
  let s := Demo.start in
  let r := handleSession Demo.upgrading 1 (Demo.request "/w1")
             (Demo.tokenFor "w1") "w1" None
             (new_WebSocketPair s).2 in
  r.1 = Ok true
  ∧ sessions r.2 = ∅
  ∧ sends (trace r.2) = [(1, Text "{id:-1,result:{state:upgrading,stats:42}}")]
  ∧ closeCalls (trace r.2) = [(1, None, None)].
Proof.
  cbv zeta.
  destruct (handleSession_upgrading Demo.upgrading (new_WebSocketPair Demo.start).2
              1 (Demo.request "/w1") (Demo.tokenFor "w1") "w1" None (VNum 42)
              eq_refl) as (Hreg & _ & Hlive & _).
  destruct Hlive as (Hok & Htr & _); [reflexivity | reflexivity | reflexivity |].
  split; [exact Hok |].
  split; [rewrite Hreg; reflexivity |].
  rewrite Htr. split; vm_compute; reflexivity.
Defined.

(** C6 as stated fails: an upgrading answer is not always a success with
    one message.  When the client is gone and the write throws, no message
    reaches it, [handleSession] closes the websocket with 4003 and raises the
    error of the write, and [fetch] answers 404. *)
Lemma upgrading_notice_lost :
  let s := (new_WebSocketPair Demo.start).2 in
  let r := handleSession Demo.lostClient 1 (Demo.request "/w1")
             (Demo.tokenFor "w1") "w1" None s in
  admission Demo.lostClient s 1 (Demo.request "/w1") (Demo.tokenFor "w1") "w1"
    None = Ok (CRUpgrade (VNum 42))
  ∧ readyState s 1 = OPEN
  ∧ r.1 = Throw (Error "Network connection lost")
  ∧ failedSends (trace r.2) = [1]
  ∧ closeCalls (trace r.2) = [(1, Some 4003%Z, Some "Session establishment failed")]
  ∧ (fetch Demo.lostClient (Demo.request "/w1") Demo.start).1 = Ok notFound
  ∧ ¬ (∀ E s ws request t rawToken sid upgradeInfo,
         admission E s ws request t rawToken sid = Ok (CRUpgrade upgradeInfo) →
         readyState s ws = OPEN →
         (handleSession E ws request t rawToken sid s).1 = Ok true).
Proof.
  cbv zeta.
  split; [reflexivity |].
  split; [reflexivity |].
  split; [vm_compute; reflexivity |].
  split; [vm_compute; reflexivity |].
  split; [vm_compute; reflexivity |].
  split; [vm_compute; reflexivity |].
  intros Halways.
  specialize (Halways Demo.lostClient (new_WebSocketPair Demo.start).2 1
                (Demo.request "/w1") (Demo.tokenFor "w1") "w1" None (VNum 42)
                eq_refl eq_refl).
  vm_compute in Halways. discriminate Halways.
Qed.

(** ** Failures while handling one message *)

Lemma cs_readRequest_decodes (E : Env) (cs : ConnectionSocket) (w : nat)
  (buffer : string) (binary : bool) :
  cs_ws cs = Some w → buffer ≠ pingConst E →
  cs_readRequest E cs buffer binary = rpcHandler_readRequest E buffer binary.
Proof.
  intros Hw Hne. unfold cs_readRequest. rewrite Hw.
  apply String.eqb_neq in Hne. rewrite Hne.
  now destruct (Nat.eqb _ _).
Qed.

(** Whatever one message does, [webSocketMessage] returns, and it changes
    nothing of the actor but the trace, to which it adds no [ws.close], no
    [sessionManager.close] and no [ws.send]. *)
Lemma webSocketMessage_frame (E : Env) (s : State) (ws : nat) (message : Frame) :
  (webSocketMessage E ws message s).1 = Ok tt
  ∧ ∃ evs,
      (webSocketMessage E ws message s).2 = set_trace (trace s ++ evs) s
      ∧ closeCalls evs = [] ∧ cleanups evs = [] ∧ sends evs = [].
Proof.
  destruct (webSocketMessage E ws message s) as [o s'] eqn:Hrun.
  unfold webSocketMessage, doSessionOp in Hrun. run_in Hrun.
  repeat (split_match Hrun; run_in Hrun).
  all: injection Hrun as <- <-.
  all: split; [reflexivity |].
  all: try (exists []; rewrite app_nil_r; destruct s; repeat split; reflexivity).
  all: eexists; split;
    [unfold set_trace; simpl_state; rewrite <- ?app_assoc; cbn [app]; reflexivity
    | repeat split; reflexivity].
Qed.

(** C9, amended.  Whatever one message does, [webSocketMessage] returns
    normally, leaves the registry, the workspace binding, the sockets and
    their ready states as they were, and makes no [ws.close] and no
    [sessionManager.close] call.  An error thrown by the codec, or thrown by
    [handleRequest] at the call, ends as one "Failed to handle message:" error
    line.  When [handleRequest] returns its promise, the handler only
    registers the completion callback and hands the promise to [waitUntil]:
    it logs no error, whether the promise is later fulfilled or rejected.
    Once the promise has settled the callback writes its "handle-request"
    line, whatever the outcome, and changes nothing else; a rejection passes
    through it uncaught.  The close path belongs to [webSocketError]: it
    closes the websocket with 1011 / "error", deletes its entry and releases
    its session, and raises only what [sessionManager.close] threw. *)
Theorem message_failure_is_isolated (E : Env) (s : State) (ws : nat)
  (message : Frame) (error : Err) :
  let r := webSocketMessage E ws message s in
  let buffer := Buffer_from message in
  let decoded (sess : Session) :=
    trace s ++ [EvMeasure "receive-data" (String.length buffer);
                EvRpcRead buffer (binaryMode sess)] in
  (r.1 = Ok tt
   ∧ ∃ evs, r.2 = set_trace (trace s ++ evs) s
            ∧ closeCalls evs = [] ∧ cleanups evs = [])
  ∧ (∀ d cs w sess workspaceId e,
       sessions s !! ws = Some d → connectionSocket d = Some cs →
       cs_ws cs = Some w → wd_session d = CRSession (Some sess) workspaceId →
       buffer ≠ pingConst E →
       rpc_readRequest E buffer (binaryMode sess) = Throw e →
       r = (Ok tt,
            set_trace (decoded sess ++
              [EvError "Failed to handle message:" (Some e)]) s))
  ∧ (∀ d cs w sess workspaceId rq e,
       sessions s !! ws = Some d → connectionSocket d = Some cs →
       cs_ws cs = Some w → wd_session d = CRSession (Some sess) workspaceId →
       buffer ≠ pingConst E →
       rpc_readRequest E buffer (binaryMode sess) = Ok rq →
       sm_handleRequest E (decoded sess) sess cs rq (workspace s) = Throw e →
       r = (Ok tt,
            set_trace (decoded sess ++
              [EvHandleRequest sess cs rq (workspace s);
               EvError "Failed to handle message:" (Some e)]) s))
  ∧ (∀ d cs w sess workspaceId rq p,
       sessions s !! ws = Some d → connectionSocket d = Some cs →
       cs_ws cs = Some w → wd_session d = CRSession (Some sess) workspaceId →
       buffer ≠ pingConst E →
       rpc_readRequest E buffer (binaryMode sess) = Ok rq →
       sm_handleRequest E (decoded sess) sess cs rq (workspace s) = Ok p →
       r = (Ok tt,
            set_trace (decoded sess ++
              [EvHandleRequest sess cs rq (workspace s);
               EvFinallyLog "handle-request" rq;
               EvWaitUntil]) s)
       ∧ handleRequest_finally E rq p r.2 =
           (match p with Fulfils => Ok tt | Rejects e => Throw e end,
            set_trace (trace r.2 ++ [EvLog "handle-request"]) r.2))
  ∧ (let r' := webSocketError E ws error s in
     sessions r'.2 = delete ws (sessions s)
     ∧ (∃ evs, trace r'.2 = trace s ++ EvError "WebSocket error:" (Some error) :: evs
               ∧ closeCalls evs = [errorClose ws]
               ∧ cleanups evs = match sessions s !! ws with
                                | Some d => [connectionSocket d]
                                | None => []
                                end)
     ∧ match sessions s !! ws with
       | None => r'.1 = Ok tt
       | Some d =>
           ∃ h, trace r'.2 = h ++ [EvSmClose (connectionSocket d) (workspace s)]
                ∧ r'.1 = released tt (sm_close E h (connectionSocket d) (workspace s))
       end).
Proof.
  cbv zeta. split; [| split; [| split; [| split]]].
  - destruct (webSocketMessage_frame E s ws message)
      as (Hok & evs & Hst & Hcl & Hcu & _).
    split; [exact Hok |]. exists evs. auto.
  - intros d cs w sess workspaceId e Hd Hcs Hw Hsess Hne Hdec.
    unfold webSocketMessage, doSessionOp, try_catch, bind, get, measure, emit,
      modify.
    simpl_state. rewrite Hd, Hcs, Hsess.
    rewrite (cs_readRequest_decodes E cs w _ _ Hw Hne).
    autounfold with handler. simpl_state. rewrite Hdec.
    unfold set_trace. simpl_state. now rewrite <- !app_assoc.
  - intros d cs w sess workspaceId rq e Hd Hcs Hw Hsess Hne Hdec Hdisp.
    unfold webSocketMessage, doSessionOp, try_catch, bind, get, measure, emit,
      modify.
    simpl_state. rewrite Hd, Hcs, Hsess.
    rewrite (cs_readRequest_decodes E cs w _ _ Hw Hne).
    autounfold with handler. simpl_state. rewrite Hdec. simpl_state.
    rewrite <- !app_assoc. cbn [app]. rewrite Hdisp.
    unfold set_trace. simpl_state. now rewrite <- !app_assoc.
  - intros d cs w sess workspaceId rq p Hd Hcs Hw Hsess Hne Hdec Hdisp.
    assert (Hrun : webSocketMessage E ws message s =
      (Ok tt,
       set_trace ((trace s ++ [EvMeasure "receive-data"
                                 (String.length (Buffer_from message));
                               EvRpcRead (Buffer_from message) (binaryMode sess)]) ++
         [EvHandleRequest sess cs rq (workspace s);
          EvFinallyLog "handle-request" rq;
          EvWaitUntil]) s)).
    { unfold webSocketMessage, doSessionOp, try_catch, bind, get, measure, emit,
        modify.
      simpl_state. rewrite Hd, Hcs, Hsess.
      rewrite (cs_readRequest_decodes E cs w _ _ Hw Hne).
      autounfold with handler. simpl_state. rewrite Hdec. simpl_state.
      rewrite <- !app_assoc. cbn [app]. rewrite Hdisp.
      unfold set_trace. simpl_state. now rewrite <- !app_assoc. }
    rewrite Hrun. split; [reflexivity |].
    unfold handleRequest_finally. autounfold with handler. simpl_state.
    now destruct p.
  - unfold webSocketError. autounfold with handler. simpl_state.
    set (s1 := set_trace _ s).
    destruct (handleClose_spec E ws 1011 (Some "error") s1)
      as (evs & Htr & Hcl & _ & Hcu & _ & Hse & _ & _ & _ & Hres).
    destruct (handleClose E ws 1011 (Some "error") s1) as [o s'].
    simpl_state.
    split; [exact Hse |].
    split; [| exact Hres].
    exists evs. repeat split; auto.
    rewrite Htr. subst s1. simpl_state. now rewrite <- app_assoc.
Qed.

Lemma message_failure_is_isolated_witness :
  webSocketMessage Demo.env 1 (Binary "") Demo.established =
    (Ok tt,
     set_trace (trace Demo.established ++
       [EvMeasure "receive-data" 0; EvRpcRead "" true;
        EvError "Failed to handle message:"
          (Some (Error "Unexpected end of input"))]) Demo.established).
Proof.
  destruct (message_failure_is_isolated Demo.env Demo.established 1 (Binary "")
              (Error "reset")) as (_ & Hdecode & _).
  rewrite (Hdecode Demo.entry1 Demo.socket1 1 Demo.session1 "w1"
             (Error "Unexpected end of input")).
  - unfold set_trace. simpl_state. now rewrite <- app_assoc.
  - vm_compute. reflexivity.
  - reflexivity.
  - reflexivity.
  - reflexivity.
  - discriminate.
  - reflexivity.
Defined.

(** C9 as stated fails for the failures of a dispatch: [handleRequest] is
    not awaited, so when the promise it returned is rejected nothing in
    [webSocketMessage] catches or logs the error.  The handler has returned
    with no error line in the trace, and the rejection passes through the
    completion callback uncaught. *)
Lemma dispatch_rejection_is_not_caught :
  let rq := {| method := "findAll"; params := []; id := VNum 1; time := None |} in
  let lost := Error "Database is unavailable" in
  let decoded := trace Demo.established ++
                   [EvMeasure "receive-data" 7; EvRpcRead "findAll" true] in
  let r := webSocketMessage Demo.failing 1 (Binary "findAll") Demo.established in
  sessions Demo.established !! 1 = Some Demo.entry1
  ∧ sm_handleRequest Demo.failing decoded Demo.session1 Demo.socket1 rq "w1" =
      Ok (Rejects lost)
  ∧ r = (Ok tt,
         set_trace (decoded ++
           [EvHandleRequest Demo.session1 Demo.socket1 rq "w1";
            EvFinallyLog "handle-request" rq;
            EvWaitUntil]) Demo.established)
  ∧ (handleRequest_finally Demo.failing rq (Rejects lost) r.2).1 = Throw lost
  ∧ ¬ (∀ E s ws message d cs w sess workspaceId rq e,
         sessions s !! ws = Some d → connectionSocket d = Some cs →
         cs_ws cs = Some w → wd_session d = CRSession (Some sess) workspaceId →
         Buffer_from message ≠ pingConst E →
         rpc_readRequest E (Buffer_from message) (binaryMode sess) = Ok rq →
         sm_handleRequest E
           (trace s ++ [EvMeasure "receive-data"
                          (String.length (Buffer_from message));
                        EvRpcRead (Buffer_from message) (binaryMode sess)])
           sess cs rq (workspace s) = Ok (Rejects e) →
         EvError "Failed to handle message:" (Some e)
           ∈ trace (webSocketMessage E ws message s).2).
Proof.
  cbv zeta.
  assert (Hentry : sessions Demo.established !! 1 = Some Demo.entry1)
    by (vm_compute; reflexivity).
  split; [exact Hentry |].
  split; [reflexivity |].
  split; [vm_compute; reflexivity |].
  split; [vm_compute; reflexivity |].
  intros Hcaught.
  specialize (Hcaught Demo.failing Demo.established 1 (Binary "findAll")
                Demo.entry1 Demo.socket1 1 Demo.session1 "w1"
                {| method := "findAll"; params := []; id := VNum 1; time := None |}
                (Error "Database is unavailable")
                Hentry eq_refl eq_refl eq_refl ltac:(discriminate) eq_refl eq_refl).
  vm_compute in Hcaught.
  repeat (apply elem_of_cons in Hcaught as [Hcaught | Hcaught];
          [discriminate Hcaught |]).
  now apply elem_of_nil in Hcaught.
Qed.

(** ** The bridge *)

Lemma errString_text (e : Err) : errString e = errorText e.
Proof.
  unfold errString, errorText.
  destruct (err_name e) as [| c name], (err_message e) as [| c' message];
    reflexivity.
Qed.

Lemma errorValue_text (e : Err) :
  errorValue e = VObj [("error", VStr (errorText e))].
Proof. unfold errorValue. now rewrite errString_text. Qed.

(** A bridge call is its [try / catch] run on a new ephemeral socket,
    followed by the cleanup call, whose error replaces the result. *)
Lemma bridge_shape (E : Env) {A} (body : ConnectionSocket -> M A) (s : State) :
  bind createDummyClientSocket
    (fun cs => try_finally (body cs) (sessionManager_close E (Some cs))) s =
  let cs := ephemeralSocket s in
  let r := body cs (set_closedSockets (closedSockets s ∖ {[nextId s]})
                      (set_nextId (S (nextId s)) s)) in
  (released' r.1 (sm_close E (trace r.2) (Some cs) (workspace r.2)),
   set_trace (trace r.2 ++ [EvSmClose (Some cs) (workspace r.2)]) r.2).
Proof.
  cbv zeta. unfold ephemeralSocket.
  repeat (autounfold with handler; simpl_state).
  destruct (body _ _) as [r s2]. simpl_state. unfold released'.
  destruct (sm_close E (trace s2) _ (workspace s2)); reflexivity.
Qed.

(** Run the [try / catch] of a bridge call along every path. *)
Ltac bridge_body :=
  rewrite bridge_shape; cbv zeta;
  match goal with
  | |- context [try_catch ?a ?b ?st] =>
      let Hbody := fresh "Hbody" in
      destruct (try_catch a b st) as [o s2] eqn:Hbody;
      unfold makeRpcSession in Hbody; run_in Hbody;
      repeat (split_match Hbody; run_in Hbody);
      injection Hbody as <- <-; simpl_state;
      rewrite ?errorValue_text
  end.

Ltac bridge_paths :=
  bridge_body;
  unfold bridgeAdmission, ephemeralSocket in *;
  do 2 eexists;
  (split; [reflexivity |]);
  (split; [first [exists []; rewrite app_nil_r; split; reflexivity
                 | eexists; split;
                   [rewrite <- ?app_assoc; cbn [app]; reflexivity | reflexivity]] |]);
  (split; [reflexivity |]);
  (split; [reflexivity |]);
  (split; [first [right; eexists; reflexivity | left; eauto] |]);
  (split; [intros ? Hbad;
           first [discriminate Hbad | injection Hbad as ->; reflexivity
                 | congruence] |]);
  split; intros; first [congruence | reflexivity].




(** ** The model snapshot *)

Lemma getModel_blob (E : Env) (rawToken : string) (s : State) (blob : string) :
  (getModel E rawToken s).1 = Ok (ReplyBlob blob) →
  ∃ txes, served E rawToken s blob txes
          ∧ blob = gzip E (TextEncoder_encode E (JSON_stringify E txes)).
Proof.
  unfold served, ephemeralSocket.
  destruct (getModel E rawToken s) as [o s'] eqn:Hrun.
  unfold getModel, getModel_load, makeRpcSession in Hrun. run_in Hrun.
  repeat (split_match Hrun; run_in Hrun).
  all: injection Hrun as <- <-; simpl_state.
  all: intros Hblob; try discriminate Hblob.
  all: injection Hblob as <-.
  all: eexists; split; [split; [reflexivity |] | reflexivity].
  all: match goal with
       | H : pipeline_loadModel _ ?h ?p _ = Ok ?l |- _ => exists h, p, l
       end.
  all: split; [rewrite <- ?app_assoc; reflexivity | split; [assumption | reflexivity]].
Qed.

Lemma served_functional (E : Env) (rawToken : string) (s : State)
  (blob blob' : string) (txes txes' : list Value) :
  served E rawToken s blob txes → served E rawToken s blob' txes' →
  txes = txes'.
Proof.
  intros (_ & h & p & loaded & Htr & Hload & ->)
         (_ & h' & p' & loaded' & Htr' & Hload' & ->).
  rewrite Htr in Htr'.
  change (h ++ [EvLoadModel p 0; ?c]) with (h ++ [EvLoadModel p 0] ++ [c]) in Htr'.
  change (h' ++ [EvLoadModel p' 0; ?c]) with (h' ++ [EvLoadModel p' 0] ++ [c]) in Htr'.
  rewrite !app_assoc in Htr'.
  apply app_inj_tail in Htr' as [Htr' _].
  apply app_inj_tail in Htr' as [-> Hev].
  injection Hev as ->.
  rewrite Hload in Hload'. now injection Hload' as ->.
Qed.

Lemma served_blob (E : Env) (rawToken : string) (s : State) (blob : string)
  (txes : list Value) :
  served E rawToken s blob txes →
  blob = gzip E (TextEncoder_encode E (JSON_stringify E txes)).
Proof.
  intros Hserved.
  destruct (getModel_blob E rawToken s blob (proj1 Hserved))
    as (txes' & Hserved' & ->).
  now rewrite (served_functional E rawToken s _ _ _ _ Hserved Hserved').
Qed.

Section ModelSnapshot.

Context (E : Env).

(** The reader's side of the snapshot: zlib's [gunzip], [TextDecoder.decode]
    and [JSON.parse], each undoing its encoder; [JSON.parse] does so on JSON
    data. *)
Context (gunzip decode : string -> string)
        (JSON_parse : string -> option (list Value)).
Hypothesis gunzip_gzip : ∀ b, gunzip (gzip E b) = b.
Hypothesis decode_encode : ∀ x, decode (TextEncoder_encode E x) = x.
Hypothesis parse_stringify :
  ∀ txes, Forall jsonData txes → JSON_parse (JSON_stringify E txes) = Some txes.


End ModelSnapshot.

(** The interchange format of the concrete environment reads back what it
    wrote. *)
Lemma Demo_of_to_tree : ∀ v, Demo.of_tree (Demo.to_tree v) = Some v.
Proof.
  fix IH 1. intros [| | b | n | str | items | fields]; cbn; try reflexivity.
  - induction items as [| x rest IHrest]; cbn; [reflexivity |].
    rewrite IH.
    match type of IHrest with
    | option_map _ ?found = _ => destruct found as [vs |]
    end; cbn in *; congruence.
  - induction fields as [| [k x] rest IHrest]; cbn; [reflexivity |].
    rewrite IH. cbn in IHrest.
    match type of IHrest with
    | option_map _ ?found = _ => destruct found as [fs |]
    end; cbn in *; congruence.
Qed.

Lemma Demo_unbits_bits (p : positive) : Demo.unbits (Demo.bits p) = Some p.
Proof. induction p as [q IH | q IH |]; cbn; rewrite ?IH; reflexivity. Qed.

Lemma Demo_unjson_json (txes : list Value) :
  Demo.unjson (Demo.json txes) = Some txes.
Proof.
  unfold Demo.unjson, Demo.json. rewrite Demo_unbits_bits, decode_encode.
  induction txes as [| v rest IH]; cbn; [reflexivity |].
  now rewrite Demo_of_to_tree, IH.
Qed.


(** ** Relations every operation keeps *)

Section Keeps.

(** A relation between the state before and the state after, which is a
    preorder, ignores every field but [workspace], and admits binding the
    workspace of an unbound actor. *)
Context (R : State -> State -> Prop).
Hypothesis R_refl : ∀ s, R s s.
Hypothesis R_trans : ∀ s1 s2 s3, R s1 s2 → R s2 s3 → R s1 s3.
Hypothesis R_trace : ∀ t s, R s (set_trace t s).
Hypothesis R_sessions : ∀ m s, R s (set_sessions m s).
Hypothesis R_webSockets : ∀ l s, R s (set_webSockets l s).
Hypothesis R_readyStates : ∀ r s, R s (set_readyStates r s).
Hypothesis R_closedSockets : ∀ c s, R s (set_closedSockets c s).
Hypothesis R_nextId : ∀ n s, R s (set_nextId n s).
Hypothesis R_bind : ∀ w s, workspace s = "" → R s (set_workspace w s).

Local Abbreviation keeps := (keeps R).

Lemma keeps_ret {A} (a : A) : keeps (ret a).
Proof. intros s. apply R_refl. Qed.

Lemma keeps_throw {A} (e : Err) : keeps (@throw A e).
Proof. intros s. apply R_refl. Qed.

Lemma keeps_get : keeps get.
Proof. intros s. apply R_refl. Qed.

Lemma keeps_bind {A B} (m : M A) (k : A -> M B) :
  keeps m → (∀ a, keeps (k a)) → keeps (bind m k).
Proof.
  intros Hm Hk s. unfold bind. specialize (Hm s).
  destruct (m s) as [[a | e] s1]; cbn in *; [| exact Hm].
  eapply R_trans; [exact Hm | apply Hk].
Qed.

Lemma keeps_try_catch {A} (body : M A) (handler : Err -> M A) :
  keeps body → (∀ e, keeps (handler e)) → keeps (try_catch body handler).
Proof.
  intros Hm Hk s. unfold try_catch. specialize (Hm s).
  destruct (body s) as [[a | e] s1]; cbn in *; [exact Hm |].
  eapply R_trans; [exact Hm | apply Hk].
Qed.

Lemma keeps_try_finally {A} (body : M A) (cleanup : M unit) :
  keeps body → keeps cleanup → keeps (try_finally body cleanup).
Proof.
  intros Hm Hc s. unfold try_finally. specialize (Hm s).
  destruct (body s) as [r s1]. specialize (Hc s1).
  destruct (cleanup s1) as [[u | e] s2]; cbn in *;
    (eapply R_trans; [exact Hm | exact Hc]).
Qed.

Lemma keeps_Promise_all_map (f : nat -> M unit) (l : list nat) :
  (∀ x, keeps (f x)) → keeps (Promise_all_map f l).
Proof.
  intros Hf. induction l as [| x rest IH]; intros s; cbn.
  - apply R_refl.
  - specialize (Hf x s). destruct (f x s) as [[u | e] s1]; cbn in *;
      (eapply R_trans; [exact Hf | apply IH]).
Qed.

(** Peel the field updates off the resulting state. *)
Ltac peel :=
  repeat first
    [ apply R_refl
    | eapply R_trans;
      [| first [ apply R_trace | apply R_sessions | apply R_webSockets
               | apply R_readyStates | apply R_closedSockets | apply R_nextId ] ] ].

Lemma keeps_emit (e : Event) : keeps (emit e).
Proof. intros s. apply R_trace. Qed.

Lemma keeps_console_log (m : string) : keeps (console_log m).
Proof. apply keeps_emit. Qed.

Lemma keeps_console_error (m : string) (e : option Err) :
  keeps (console_error m e).
Proof. apply keeps_emit. Qed.

Lemma keeps_measure (n : string) (k : nat) : keeps (measure n k).
Proof. apply keeps_emit. Qed.

Context (E : Env).

Lemma keeps_bind_workspace (w : string) : keeps (bind_workspace w).
Proof.
  intros s. unfold bind_workspace, bind, get, modify, ret.
  destruct (String.eqb (workspace s) "") eqn:Hw; cbn.
  - apply R_bind. now apply String.eqb_eq.
  - apply R_refl.
Qed.

Lemma keeps_Date_now : keeps (Date_now E).
Proof. intros s. apply R_refl. Qed.

Lemma keeps_generateId : keeps generateId.
Proof. intros s. apply R_nextId. Qed.

Lemma keeps_ws_send_op (ws : nat) (f : Frame) : keeps (ws_send_op E ws f).
Proof.
  intros s. unfold ws_send_op. destruct (ws_send E _ ws f); apply R_trace.
Qed.

Lemma keeps_ws_close_op (ws : nat) (c : option Z) (r : option string) :
  keeps (ws_close_op E ws c r).
Proof.
  intros s. unfold ws_close_op. destruct (ws_close E _ ws c r); cbn.
  - apply R_trace.
  - eapply R_trans; [apply R_readyStates | apply R_trace].
Qed.

Lemma keeps_sessionManager_addSession (cs : ConnectionSocket) (t : Token) (raw : string) (sid : option string) :
  keeps (sessionManager_addSession E cs t raw sid).
Proof.
  intros s. unfold sessionManager_addSession. destruct (sm_addSession E _ cs t raw sid); apply R_trace.
Qed.

Lemma keeps_sessionManager_handleRequest (sess : Session) (cs : ConnectionSocket) (rq : RpcRequest) :
  keeps (sessionManager_handleRequest E sess cs rq).
Proof.
  intros s. unfold sessionManager_handleRequest. destruct (sm_handleRequest E _ sess cs rq _); apply R_trace.
Qed.

Lemma keeps_sessionManager_close (cs : option ConnectionSocket) :
  keeps (sessionManager_close E cs).
Proof.
  intros s. unfold sessionManager_close. destruct (sm_close E _ cs _); apply R_trace.
Qed.

Lemma keeps_includeSessionContext_op (sess : Session) (p : nat) :
  keeps (includeSessionContext_op E sess p).
Proof.
  intros s. unfold includeSessionContext_op. destruct (includeSessionContext E _ sess p); apply R_trace.
Qed.

Lemma keeps_pipeline_findAll_op (p : nat) (c : string) (q o : Value) :
  keeps (pipeline_findAll_op E p c q o).
Proof.
  intros s. unfold pipeline_findAll_op. destruct (pipeline_findAll E _ p c q o); apply R_trace.
Qed.

Lemma keeps_pipeline_tx_op (p : nat) (txes : list Value) :
  keeps (pipeline_tx_op E p txes).
Proof.
  intros s. unfold pipeline_tx_op. destruct (pipeline_tx E _ p txes); apply R_trace.
Qed.

Lemma keeps_pipeline_loadModel_op (p : nat) (n : Z) :
  keeps (pipeline_loadModel_op E p n).
Proof.
  intros s. unfold pipeline_loadModel_op. destruct (pipeline_loadModel E _ p n); apply R_trace.
Qed.

Lemma keeps_getRawAccount_op (sess : Session) (p : nat) :
  keeps (getRawAccount_op E sess p).
Proof.
  intros s. unfold getRawAccount_op. destruct (getRawAccount E _ sess p); apply R_trace.
Qed.

Ltac keeps_go :=
  repeat first
    [ apply keeps_ret | apply keeps_throw | apply keeps_get | apply keeps_emit
    | apply keeps_console_log | apply keeps_console_error | apply keeps_measure
    | apply keeps_bind_workspace | apply keeps_Date_now | apply keeps_generateId
    | apply keeps_ws_send_op | apply keeps_ws_close_op
    | apply keeps_sessionManager_addSession
    | apply keeps_sessionManager_handleRequest
    | apply keeps_sessionManager_close
    | apply keeps_includeSessionContext_op | apply keeps_pipeline_findAll_op
    | apply keeps_pipeline_tx_op | apply keeps_pipeline_loadModel_op
    | apply keeps_getRawAccount_op
    | match goal with
      | H : context [keeps] |- keeps _ => solve [apply H]
      end
    | apply keeps_bind; [| intros ?]
    | apply keeps_try_catch; [| intros ?]
    | apply keeps_try_finally
    | apply keeps_Promise_all_map; intros ?
    | progress cbv zeta
    | match goal with
      | |- keeps (modify _) => intros ?; unfold modify; cbn [fst snd]; peel
      | |- keeps (match ?x with _ => _ end) => destruct x
      end ].

Lemma keeps_decodeToken_op (raw : string) : keeps (decodeToken_op E raw).
Proof. unfold decodeToken_op. keeps_go. Qed.

Lemma keeps_await_pipeline (sess : Session) : keeps (await_pipeline sess).
Proof. unfold await_pipeline. keeps_go. Qed.

Lemma keeps_rpcHandler_readRequest (b : string) (binary : bool) :
  keeps (rpcHandler_readRequest E b binary).
Proof. unfold rpcHandler_readRequest. keeps_go. Qed.

Lemma keeps_rpcHandler_serialize (m : Value) (binary : bool) :
  keeps (rpcHandler_serialize E m binary).
Proof. unfold rpcHandler_serialize. keeps_go. Qed.

Lemma keeps_acceptWebSocket (ws : nat) : keeps (acceptWebSocket ws).
Proof. unfold acceptWebSocket. keeps_go. Qed.

Lemma keeps_new_WebSocketPair : keeps new_WebSocketPair.
Proof. unfold new_WebSocketPair. keeps_go. Qed.

Lemma keeps_createWebsocketClientSocket (ws : nat) (d : ClientData) :
  keeps (createWebsocketClientSocket ws d).
Proof. unfold createWebsocketClientSocket, init_isClosed. keeps_go. Qed.

Lemma keeps_createDummyClientSocket : keeps createDummyClientSocket.
Proof. unfold createDummyClientSocket, init_isClosed. keeps_go. Qed.

Lemma keeps_cs_close (cs : ConnectionSocket) : keeps (cs_close E cs).
Proof. unfold cs_close, set_isClosed. keeps_go. Qed.

Lemma keeps_cs_checkState (cs : ConnectionSocket) : keeps (cs_checkState E cs).
Proof. unfold cs_checkState. keeps_go. Qed.

Lemma keeps_cs_readRequest (cs : ConnectionSocket) (b : string) (binary : bool) :
  keeps (cs_readRequest E cs b binary).
Proof.
  pose proof keeps_rpcHandler_readRequest. unfold cs_readRequest. keeps_go.
Qed.

Lemma keeps_cs_send (cs : ConnectionSocket) (m : Value) (binary c : bool) :
  keeps (cs_send E cs m binary c).
Proof.
  pose proof keeps_rpcHandler_serialize. unfold cs_send. keeps_go.
Qed.

Lemma keeps_cs_sendPong (cs : ConnectionSocket) : keeps (cs_sendPong E cs).
Proof. unfold cs_sendPong. keeps_go. Qed.

Lemma keeps_handleClose (ws : nat) (code : Z) (reason : option string) :
  keeps (handleClose E ws code reason).
Proof. unfold handleClose. keeps_go. Qed.

Lemma keeps_handleRequest_finally (rq : RpcRequest) (r : Settles) :
  keeps (handleRequest_finally E rq r).
Proof. unfold handleRequest_finally. keeps_go. Qed.

Lemma keeps_webSocketError (ws : nat) (error : Err) :
  keeps (webSocketError E ws error).
Proof. pose proof keeps_handleClose. unfold webSocketError. keeps_go. Qed.

Lemma keeps_sendMessage (ws : nat) (f : Frame) : keeps (sendMessage E ws f).
Proof. pose proof keeps_handleClose. unfold sendMessage. keeps_go. Qed.

Lemma keeps_broadcastMessage (message : string) :
  keeps (broadcastMessage E message).
Proof.
  pose proof keeps_sendMessage. unfold broadcastMessage, getWebSockets.
  keeps_go.
Qed.

Lemma keeps_webSocketMessage (ws : nat) (message : Frame) :
  keeps (webSocketMessage E ws message).
Proof.
  pose proof keeps_cs_readRequest.
  unfold webSocketMessage, doSessionOp. keeps_go.
Qed.

Lemma keeps_runtime_receive (ws : nat) (message : Frame) :
  keeps (runtime_receive E ws message).
Proof.
  pose proof keeps_webSocketMessage. unfold runtime_receive. keeps_go.
Qed.

Lemma keeps_handleSession (ws : nat) (request : Request) (t : Token)
  (raw : string) (sid : option string) :
  keeps (handleSession E ws request t raw sid).
Proof.
  pose proof keeps_acceptWebSocket. pose proof keeps_createWebsocketClientSocket.
  pose proof keeps_cs_send. pose proof keeps_cs_close.
  unfold handleSession. keeps_go.
Qed.

Lemma keeps_fetch (request : Request) : keeps (fetch E request).
Proof.
  pose proof keeps_new_WebSocketPair. pose proof keeps_decodeToken_op.
  pose proof keeps_handleSession.
  unfold fetch. keeps_go.
Qed.

Lemma keeps_makeRpcSession (raw : string) (cs : ConnectionSocket) :
  keeps (makeRpcSession E raw cs).
Proof. pose proof keeps_decodeToken_op. unfold makeRpcSession. keeps_go. Qed.

Lemma keeps_findAll (raw w c : string) (q o : option Value) :
  keeps (findAll E raw w c q o).
Proof.
  pose proof keeps_createDummyClientSocket. pose proof keeps_makeRpcSession.
  pose proof keeps_await_pipeline.
  unfold findAll. keeps_go.
Qed.

Lemma keeps_tx (raw w : string) (t : Value) : keeps (tx E raw w t).
Proof.
  pose proof keeps_createDummyClientSocket. pose proof keeps_makeRpcSession.
  pose proof keeps_await_pipeline.
  unfold tx. keeps_go.
Qed.

Lemma keeps_getModel (raw : string) : keeps (getModel E raw).
Proof.
  pose proof keeps_createDummyClientSocket. pose proof keeps_makeRpcSession.
  pose proof keeps_await_pipeline.
  unfold getModel, getModel_load. keeps_go.
Qed.

Lemma keeps_getAccount (raw : string) : keeps (getAccount E raw).
Proof.
  pose proof keeps_createDummyClientSocket. pose proof keeps_makeRpcSession.
  pose proof keeps_await_pipeline.
  unfold getAccount. keeps_go.
Qed.

(** Every operation keeps the relation, and so does every run. *)
Lemma keeps_step (op : Op) (s : State) : R s (step E op s).
Proof.
  destruct op; cbn [step].
  - apply keeps_fetch.
  - apply keeps_runtime_receive.
  - apply keeps_webSocketMessage.
  - apply keeps_webSocketError.
  - apply (keeps_console_log "Resource usage").
  - apply keeps_handleSession.
  - apply keeps_broadcastMessage.
  - apply keeps_sendMessage.
  - apply keeps_handleClose.
  - apply keeps_findAll.
  - apply keeps_tx.
  - apply keeps_getModel.
  - apply keeps_getAccount.
  - destruct call; cbn [socketCall].
    + apply keeps_cs_send.
    + apply keeps_cs_sendPong.
    + apply keeps_cs_close.
    + apply keeps_cs_checkState.
    + apply keeps_cs_readRequest.
  - apply keeps_handleRequest_finally.
Qed.

Lemma keeps_run (ops : list Op) (s : State) : R s (run E ops s).
Proof.
  revert s. induction ops as [| op ops IH]; intros s; cbn.
  - apply R_refl.
  - eapply R_trans; [apply keeps_step | apply IH].
Qed.

End Keeps.

(** ** The workspace binding *)

Lemma stays_bound_trans (s1 s2 s3 : State) :
  stays_bound s1 s2 → stays_bound s2 s3 → stays_bound s1 s3.
Proof.
  unfold stays_bound. intros H12 H23 Hne.
  rewrite <- (H12 Hne). apply H23. now rewrite (H12 Hne).
Qed.

Lemma step_stays_bound (E : Env) (op : Op) (s : State) :
  stays_bound s (step E op s).
Proof.
  apply keeps_step; try (intros; intros _; reflexivity).
  - apply stays_bound_trans.
  - intros w s0 Hunbound Hbound. contradiction.
Qed.

Lemma run_stays_bound (E : Env) (ops : list Op) (s : State) :
  stays_bound s (run E ops s).
Proof.
  apply keeps_run; try (intros; intros _; reflexivity).
  - apply stays_bound_trans.
  - intros w s0 Hunbound Hbound. contradiction.
Qed.

Ltac same_workspace_hyps :=
  try (intros; reflexivity);
  try (unfold same_workspace; intros; congruence).

Lemma handleSession_same_workspace (E : Env) (ws : nat) (request : Request)
  (t : Token) (raw : string) (sid : option string) (s : State) :
  workspace (handleSession E ws request t raw sid s).2 = workspace s.
Proof.
  apply (keeps_handleSession same_workspace); same_workspace_hyps.
Qed.

Lemma step_same_workspace (E : Env) (op : Op) (s : State) :
  binds op = false → workspace (step E op s) = workspace s.
Proof.
  destruct op; cbn [binds step]; try discriminate; intros _.
  - apply (keeps_runtime_receive same_workspace); same_workspace_hyps.
  - apply (keeps_webSocketMessage same_workspace); same_workspace_hyps.
  - apply (keeps_webSocketError same_workspace); same_workspace_hyps.
  - reflexivity.
  - apply handleSession_same_workspace.
  - apply (keeps_broadcastMessage same_workspace); same_workspace_hyps.
  - apply (keeps_sendMessage same_workspace); same_workspace_hyps.
  - apply (keeps_handleClose same_workspace); same_workspace_hyps.
  - destruct call; cbn [socketCall].
    + apply (keeps_cs_send same_workspace); same_workspace_hyps.
    + apply (keeps_cs_sendPong same_workspace); same_workspace_hyps.
    + apply (keeps_cs_close same_workspace); same_workspace_hyps.
    + apply (keeps_cs_checkState same_workspace); same_workspace_hyps.
    + apply (keeps_cs_readRequest same_workspace); same_workspace_hyps.
  - apply (keeps_handleRequest_finally same_workspace); same_workspace_hyps.
Qed.

Lemma fetch_binds (E : Env) (request : Request) (s : State) (u : URL) (t : Token) :
  parseURL E (url request) = Some u →
  decodeToken E (substring1 (pathname u)) = Ok t →
  workspace (fetch E request s).2 = bound_to s t.
Proof.
  intros Hurl Htoken. unfold fetch, bound_to.
  unfold new_WebSocketPair, bind_workspace, decodeToken_op.
  rewrite Hurl, Htoken.
  autounfold with handler. simpl_state.
  destruct (String.eqb (workspace s) "") eqn:Hw; simpl_state.
  all: match goal with
       | |- context [handleSession ?env ?ws ?rq ?tk ?raw ?sid ?st] =>
           pose proof (handleSession_same_workspace env ws rq tk raw sid st) as Hkeep;
           destruct (handleSession env ws rq tk raw sid st) as [[[|] | e] s3]
       end; simpl_state; exact Hkeep.
Qed.

Lemma makeRpcSession_binds (E : Env) (raw : string) (cs : ConnectionSocket)
  (s : State) (sess : Session) :
  (makeRpcSession E raw cs s).1 = Ok sess →
  ∃ t, decodeToken E raw = Ok t
       ∧ workspace (makeRpcSession E raw cs s).2 = bound_to s t.
Proof.
  unfold bound_to.
  destruct (makeRpcSession E raw cs s) as [o s'] eqn:Hrun.
  unfold makeRpcSession in Hrun. run_in Hrun.
  repeat (split_match Hrun; run_in Hrun).
  all: injection Hrun as <- <-; simpl_state.
  all: intros Hok; try discriminate Hok.
  all: eexists; split; [reflexivity |].
  all: reflexivity.
Qed.

(** C1.  The workspace is bound at most once.  An operation of a bound actor
    leaves the binding as it is, and so does any run of operations; the
    binding can only change while it is the empty string, and only in
    [fetch] or in a bridge call (through [makeRpcSession]), which set it from
    the workspace name of the token they decoded. *)
Theorem workspace_bound_once (E : Env) :
  (∀ op s, workspace s ≠ "" → workspace (step E op s) = workspace s)
  ∧ (∀ ops s, workspace s ≠ "" → workspace (run E ops s) = workspace s)
  ∧ (∀ op s, workspace (step E op s) ≠ workspace s →
             workspace s = "" ∧ binds op = true)
  ∧ (∀ request s u t,
       parseURL E (url request) = Some u →
       decodeToken E (substring1 (pathname u)) = Ok t →
       workspace (fetch E request s).2 =
         if String.eqb (workspace s) "" then workspace_name t else workspace s)
  ∧ (∀ raw cs s sess,
       (makeRpcSession E raw cs s).1 = Ok sess →
       ∃ t, decodeToken E raw = Ok t
            ∧ workspace (makeRpcSession E raw cs s).2 =
                if String.eqb (workspace s) "" then workspace_name t
                else workspace s).
Proof.
  split; [| split; [| split; [| split]]].
  - intros op s. apply step_stays_bound.
  - intros ops s. apply run_stays_bound.
  - intros op s Hchanged. split.
    + destruct (String.eqb_spec (workspace s) "") as [Hw | Hw]; [exact Hw |].
      destruct Hchanged. now apply step_stays_bound.
    + destruct (binds op) eqn:Hb; [reflexivity |].
      destruct Hchanged. now apply step_same_workspace.
  - apply fetch_binds.
  - apply makeRpcSession_binds.
Qed.

Lemma workspace_bound_once_witness :
  workspace Demo.start = ""
  ∧ workspace Demo.established = "w1"
  ∧ workspace (run Demo.env
                 [OpFetch (Demo.request "/w2"); OpGetAccount "w3";
                  OpWebSocketError 1 (Error "reset"); OpTx "w4" "w4" (VObj [])]
                 Demo.established) = "w1".
Proof.
  destruct (workspace_bound_once Demo.env) as (_ & Hrun & _ & Hfetch & _).
  split; [reflexivity |].
  assert (Hbound : workspace Demo.established = "w1").
  { unfold Demo.established.
    rewrite (Hfetch (Demo.request "/w1") Demo.start
               {| pathname := "/w1"; searchParams_sessionId := None |}
               (Demo.tokenFor "w1") eq_refl eq_refl).
    reflexivity. }
  split; [exact Hbound |].
  rewrite Hrun; [exact Hbound |].
  rewrite Hbound. discriminate.
Defined.


(** ** Keep-alive *)

Lemma run_same_autoResponse (E : Env) (ops : list Op) (s : State) :
  autoResponse (run E ops s) = autoResponse s.
Proof.
  apply (keeps_run same_autoResponse); try (intros; reflexivity).
  unfold same_autoResponse. intros; congruence.
Qed.

Lemma cs_readRequest_ping (E : Env) (cs : ConnectionSocket) (w : nat)
  (binary : bool) (s : State) :
  cs_ws cs = Some w →
  cs_readRequest E cs (pingConst E) binary s =
    (Ok (syntheticPing E (now E (trace s))), s).
Proof.
  intros Hw. unfold cs_readRequest. rewrite Hw.
  now rewrite Nat.eqb_refl, String.eqb_refl.
Qed.

(** C2 as stated fails: the keep-alive probe reaches dispatch.  On an
    established connection, [webSocketMessage] given a binary frame whose
    bytes are the probe hands the synthetic ping to
    [sessionManager.handleRequest], and writes no reply itself. *)
Lemma keepalive_reaches_dispatch :
  Buffer_from (Binary "ping") = pingConst Demo.env
  ∧ sessions Demo.established !! 1 = Some Demo.entry1
  ∧ webSocketMessage Demo.env 1 (Binary "ping") Demo.established =
      (Ok tt,
       set_trace
         (trace Demo.established ++
          [EvMeasure "receive-data" 4;
           EvHandleRequest Demo.session1 Demo.socket1
             {| method := "ping"; params := []; id := VNum (-1); time := Some 0%Z |}
             "w1";
           EvFinallyLog "handle-request"
             {| method := "ping"; params := []; id := VNum (-1); time := Some 0%Z |};
           EvWaitUntil])
         Demo.established)
  ∧ ¬ (∀ E s ws message,
         Buffer_from message = pingConst E →
         dispatches (trace (webSocketMessage E ws message s).2) =
           dispatches (trace s)).
Proof.
  split; [reflexivity |].
  split; [vm_compute; reflexivity |].
  split; [vm_compute; reflexivity |].
  intros Hnever.
  specialize (Hnever Demo.env Demo.established 1 (Binary "ping") eq_refl).
  vm_compute in Hnever. discriminate Hnever.
Qed.

(** C2, amended.  The constructor registers the probe and the reply as the
    runtime's auto-response pair, and no operation changes the pair; so on
    any state the actor reaches, a text frame equal to the probe is answered
    by the runtime with exactly the fixed reply, [webSocketMessage] is not
    run and nothing is dispatched.  [readRequest] on a buffer equal to the
    probe returns the synthetic ping and leaves the state, trace included,
    as it was: the RPC codec is not invoked.  A frame with the probe's bytes
    that does reach [webSocketMessage] on an established connection is handed,
    as that synthetic ping, to [sessionManager.handleRequest]; the codec
    decodes nothing and the actor itself writes nothing to the transport. *)
Theorem keepalive_handling (E : Env) :
  (∀ host ops ws,
     let s := run E ops (constructor E host) in
     runtime_receive E ws (Text (pingConst E)) s =
       (Ok tt, set_trace (trace s ++ [EvAutoResponse ws (pongConst E)]) s))
  ∧ (∀ cs w binary s,
       cs_ws cs = Some w →
       cs_readRequest E cs (pingConst E) binary s =
         (Ok {| method := pingConst E; params := []; id := VNum (-1);
                time := Some (now E (trace s)) |}, s))
  ∧ (∀ s ws message d cs w sess workspaceId,
       Buffer_from message = pingConst E →
       sessions s !! ws = Some d → connectionSocket d = Some cs →
       cs_ws cs = Some w → wd_session d = CRSession (Some sess) workspaceId →
       let r := webSocketMessage E ws message s in
       let measured := trace s ++ [EvMeasure "receive-data"
                                     (String.length (pingConst E))] in
       r.1 = Ok tt
       ∧ dispatches (trace r.2) =
           dispatches (trace s) ++ [syntheticPing E (now E measured)]
       ∧ codecReads (trace r.2) = codecReads (trace s)
       ∧ sends (trace r.2) = sends (trace s)).
Proof.
  split; [| split].
  - intros host ops ws s.
    assert (Hpair : autoResponse s = Some (pingConst E, pongConst E))
      by (subst s; rewrite run_same_autoResponse; reflexivity).
    unfold runtime_receive, bind, get, emit, modify. rewrite Hpair.
    now rewrite String.eqb_refl.
  - intros cs w binary s Hw. now apply cs_readRequest_ping with (w := w).
  - intros s ws message d cs w sess workspaceId Hping Hd Hcs Hw Hsess.
    cbv zeta.
    destruct (webSocketMessage E ws message s) as [o s'] eqn:Hrun.
    unfold webSocketMessage, doSessionOp, try_catch, bind, get, measure, emit,
      modify in Hrun.
    simpl_state. rewrite Hd, Hcs, Hsess, Hping in Hrun.
    rewrite (cs_readRequest_ping E cs w _ _ Hw) in Hrun.
    run_in Hrun.
    split_match Hrun; injection Hrun as <- <-; simpl_state.
    all: autorewrite with trace_app; cbn.
    all: rewrite ?app_nil_r; repeat split; reflexivity.
Qed.

Lemma keepalive_handling_witness :
  (let s := run Demo.env [OpFetch (Demo.request "/w1")]
              (constructor Demo.env Demo.host) in
   runtime_receive Demo.env 1 (Text (pingConst Demo.env)) s =
     (Ok tt, set_trace (trace s ++ [EvAutoResponse 1 (pongConst Demo.env)]) s))
  ∧ dispatches (trace (webSocketMessage Demo.env 1 (Binary "ping")
                         Demo.established).2) =
      [{| method := "ping"; params := []; id := VNum (-1); time := Some 0%Z |}].
Proof.
  destruct (keepalive_handling Demo.env) as (Hauto & _ & Hframe).
  split.
  - exact (Hauto Demo.host [OpFetch (Demo.request "/w1")] 1).
  - assert (Hentry : sessions Demo.established !! 1 = Some Demo.entry1)
      by (vm_compute; reflexivity).
    destruct (Hframe Demo.established 1 (Binary "ping") Demo.entry1
                Demo.socket1 1 Demo.session1 "w1" eq_refl Hentry eq_refl
                eq_refl eq_refl)
      as (_ & Hdispatch & _).
    rewrite Hdispatch. vm_compute. reflexivity.
Defined.

(** ** Connection sockets at work *)

Lemma dead_false (s : State) (ws : nat) (cs : ConnectionSocket) :
  readyState s ws = OPEN → cs_id cs ∉ closedSockets s → dead s ws cs = false.
Proof.
  intros Hopen Hflag. unfold dead, isClosed. rewrite Hopen. cbn.
  now apply bool_decide_eq_false_2.
Qed.

(** X1.  On a live socket (the websocket is OPEN and the socket object was
    not closed) [send] serialises the message, reports [smsg.length] of the
    serialisation before any compression (the bytes of a binary frame, the
    UTF-16 code units of a text frame), and makes exactly one [ws.send], of
    the serialised message, compressed when compression is on.  Nothing is
    guarded: when [compress] throws, as snappyjs does on the string of a text
    frame, [send] raises that error and writes nothing; otherwise it returns
    normally exactly when [ws.send] did not throw.  [sendPong] makes exactly
    one [ws.send], of the fixed reply as a text frame, without the codec.
    Neither changes anything of the state but the trace. *)
Theorem live_socket_writes (E : Env) (s : State) (cs : ConnectionSocket)
  (ws : nat) (msg : Value) (binary compression : bool) :
  cs_ws cs = Some ws → readyState s ws = OPEN → cs_id cs ∉ closedSockets s →
  let r := cs_send E cs msg binary compression s in
  let p := cs_sendPong E cs s in
  let smsg := rpc_serialize E msg binary in
  (∃ evs, r.2 = set_trace (trace s ++ evs) s
          ∧ EvMeasure "send-data"
              (match smsg with
               | Text text => js_length text
               | Binary bytes => String.length bytes
               end) ∈ evs
          ∧ match (if compression then compress E smsg else Ok smsg) with
            | Ok wire =>
                sends evs = [(ws, wire)] ∧ (r.1 = Ok tt ↔ failedSends evs = [])
            | Throw e => sends evs = [] ∧ r.1 = Throw e
            end)
  ∧ (∃ ev, p.2 = set_trace (trace s ++ [ev]) s
           ∧ sends [ev] = [(ws, Text (pongConst E))]
           ∧ (p.1 = Ok tt ↔ failedSends [ev] = [])).
Proof.
  intros Hws Hopen Hflag. cbv zeta. split.
  - destruct (cs_send E cs msg binary compression s) as [o s'] eqn:Hrun.
    unfold cs_send in *. rewrite Hws in Hrun. run_in Hrun.
    rewrite dead_false in Hrun by assumption.
    change (frameLength (rpc_serialize E msg binary))
      with (match rpc_serialize E msg binary with
            | Text text => js_length text
            | Binary bytes => String.length bytes
            end) in Hrun.
    destruct compression; run_in Hrun;
      repeat (split_match Hrun; run_in Hrun);
      injection Hrun as <- <-; simpl_state.
    all: eexists; split;
      [unfold set_trace; simpl_state; rewrite <- ?app_assoc; reflexivity |].
    all: split; [cbn; set_solver |].
    all: cbn; split; [reflexivity |].
    all: try reflexivity.
    all: split; intros Hx; first [discriminate Hx | reflexivity].
  - destruct (cs_sendPong E cs s) as [o s'] eqn:Hrun.
    unfold cs_sendPong in Hrun. rewrite Hws in Hrun. run_in Hrun.
    rewrite dead_false in Hrun by assumption. run_in Hrun.
    split_match Hrun; injection Hrun as <- <-; simpl_state.
    all: eexists; split; [reflexivity |].
    all: split; [reflexivity |].
    all: cbn; split; intros Hx; first [discriminate Hx | reflexivity].
Qed.

Lemma live_socket_writes_witness :
  sends (trace (cs_send Demo.env Demo.socket1 (VStr "hi") true true
                  Demo.established).2) = [(1, Binary "{}")]
  ∧ (cs_send Demo.env Demo.socket1 (VStr "hi") false true Demo.established).1 =
      Throw (TypeError
        "Argument compressed must be type of ArrayBuffer, Buffer, or Uint8Array")
  ∧ sends (trace (cs_send Demo.env Demo.socket1 (VStr "hi") false true
                    Demo.established).2) = []
  ∧ sends (trace (cs_sendPong Demo.env Demo.socket1 Demo.established).2) =
      [(1, Text "pong!")].
Proof.
  assert (Hopen : readyState Demo.established 1 = OPEN) by (vm_compute; reflexivity).
  assert (Hflag : cs_id Demo.socket1 ∉ closedSockets Demo.established)
    by (refine (bool_decide_unpack _ _); vm_compute; exact I).
  destruct (live_socket_writes Demo.env Demo.established Demo.socket1 1
              (VStr "hi") true true eq_refl Hopen Hflag)
    as ((evs & Hst & _ & Hsends & _) & (ev & Hst' & Hsends' & _)).
  destruct (live_socket_writes Demo.env Demo.established Demo.socket1 1
              (VStr "hi") false true eq_refl Hopen Hflag)
    as ((evs2 & Hst2 & _ & Hnone & Hthrow) & _).
  split; [| split; [| split]].
  - rewrite Hst. simpl_state. rewrite sends_app, Hsends. vm_compute. reflexivity.
  - exact Hthrow.
  - rewrite Hst2. simpl_state. rewrite sends_app, Hnone. vm_compute. reflexivity.
  - rewrite Hst'. simpl_state. rewrite sends_app, Hsends'. vm_compute. reflexivity.
Defined.

(** X2.  [readRequest] of a websocket socket hands the buffer to the RPC
    codec exactly when the buffer is not the probe: the result is the
    synthetic ping for the probe, and the codec's own result or error for
    every other buffer, buffers of the probe's length included.  The length
    test changes no result. *)
Theorem readRequest_codec_or_ping (E : Env) (s : State) (cs : ConnectionSocket)
  (w : nat) (buffer : string) (binary : bool) :
  cs_ws cs = Some w →
  let r := cs_readRequest E cs buffer binary s in
  r.1 = (if String.eqb buffer (pingConst E)
         then Ok (syntheticPing E (now E (trace s)))
         else rpc_readRequest E buffer binary)
  ∧ r.2 = (if String.eqb buffer (pingConst E) then s
           else set_trace (trace s ++ [EvRpcRead buffer binary]) s).
Proof.
  intros Hw. cbv zeta. unfold cs_readRequest. rewrite Hw.
  destruct (String.eqb buffer (pingConst E)) eqn:Hping.
  - apply String.eqb_eq in Hping as ->. rewrite Nat.eqb_refl.
    split; reflexivity.
  - assert (Hcodec : ∀ b : bool,
              (if b then rpcHandler_readRequest E buffer binary
               else rpcHandler_readRequest E buffer binary) =
              rpcHandler_readRequest E buffer binary) by (now intros []).
    rewrite Hcodec. unfold rpcHandler_readRequest.
    autounfold with handler. simpl_state.
    destruct (rpc_readRequest E buffer binary); split; reflexivity.
Qed.

Lemma readRequest_codec_or_ping_witness :
  (cs_readRequest Demo.env Demo.socket1 "pong" true Demo.established).1 =
    Ok {| method := "pong"; params := []; id := VNum 1; time := None |}
  ∧ (cs_readRequest Demo.env Demo.socket1 "ping" true Demo.established).1 =
      Ok {| method := "ping"; params := []; id := VNum (-1); time := Some 0%Z |}.
Proof.
  split.
  - apply (readRequest_codec_or_ping Demo.env Demo.established Demo.socket1 1
             "pong" true eq_refl).
  - apply (readRequest_codec_or_ping Demo.env Demo.established Demo.socket1 1
             "ping" true eq_refl).
Defined.

Lemma readyState_set_trace (t : list Event) (s : State) (ws : nat) :
  readyState (set_trace t s) ws = readyState s ws.
Proof. reflexivity. Qed.

Lemma readyState_set_closedSockets (c : gset nat) (s : State) (ws : nat) :
  readyState (set_closedSockets c s) ws = readyState s ws.
Proof. reflexivity. Qed.

Lemma readyState_closed (r : gmap nat ReadyState) (s : State) (ws : nat)
  (m : ReadyState) :
  readyState (set_readyStates (<[ws := m]> r) s) ws = m.
Proof. unfold readyState. simpl_state. now rewrite lookup_insert_eq. Qed.

Lemma closing_not_OPEN (r : ReadyState) : closing r ≠ OPEN.
Proof. destruct r; discriminate. Qed.

Lemma closing_closing (r : ReadyState) : closing (closing r) = closing r.
Proof. now destruct r. Qed.

Lemma cs_checkState_spec (E : Env) (s : State) (cs : ConnectionSocket) (ws : nat) :
  cs_ws cs = Some ws →
  cs_checkState E cs s =
    match readyState s ws with
    | CLOSED | CLOSING =>
        match ws_close E (trace s) ws None None with
        | None =>
            (Ok false,
             set_trace (trace s ++ [EvWsClose ws None None])
               (set_readyStates
                  (<[ws := closing (readyState s ws)]> (readyStates s)) s))
        | Some e =>
            (Throw e, set_trace (trace s ++ [EvWsCloseFailed ws None None e]) s)
        end
    | OPEN | CONNECTING => (Ok true, s)
    end.
Proof.
  intros Hws. unfold cs_checkState. rewrite Hws. autounfold with handler.
  destruct (readyState s ws) eqn:Hr; cbn; try reflexivity;
    destruct (ws_close E (trace s) ws None None); rewrite ?Hr; reflexivity.
Qed.

Lemma cs_close_spec (E : Env) (s : State) (cs : ConnectionSocket) (ws : nat) :
  cs_ws cs = Some ws →
  cs_close E cs s =
    let s0 := set_closedSockets ({[cs_id cs]} ∪ closedSockets s) s in
    match ws_close E (trace s) ws None None with
    | None =>
        (Ok tt,
         set_trace (trace s ++ [EvWsClose ws None None])
           (set_readyStates
              (<[ws := closing (readyState s ws)]> (readyStates s)) s0))
    | Some e =>
        (Throw e, set_trace (trace s ++ [EvWsCloseFailed ws None None e]) s0)
    end.
Proof.
  intros Hws. unfold cs_close. rewrite Hws. autounfold with handler.
  simpl_state. now destruct (ws_close E (trace s) ws None None).
Qed.

Lemma cs_send_dead (E : Env) (s : State) (cs : ConnectionSocket) (ws : nat)
  (msg : Value) (binary compression : bool) :
  cs_ws cs = Some ws → dead s ws cs = true →
  cs_send E cs msg binary compression s =
    (Ok tt,
     set_trace (trace s ++
       [EvRpcSerialize msg binary;
        EvMeasure "send-data" (frameLength (rpc_serialize E msg binary))]) s).
Proof.
  intros Hws Hdead. unfold cs_send. rewrite Hws.
  autounfold with handler. simpl_state.
  change (dead (set_trace _ (set_trace _ s)) ws cs) with (dead s ws cs).
  rewrite Hdead. unfold set_trace; simpl_state. now rewrite <- app_assoc.
Qed.



(** X4.  [close] of a websocket socket sets [isClosed] before it calls
    [ws.close()], so whatever the transport does with the close, later
    [send] and [sendPong] calls on the socket write nothing and return.
    When [ws.close()] returned, the websocket is no longer OPEN and
    [checkState] no longer answers true; a second [close] then leaves the
    flag and the ready state as the first left them. *)
Theorem close_then_use (E : Env) (s : State) (cs : ConnectionSocket) (ws : nat)
  (msg : Value) (binary compression : bool) :
  cs_ws cs = Some ws →
  let c1 := cs_close E cs s in
  let c2 := cs_close E cs c1.2 in
  cs_id cs ∈ closedSockets c1.2
  ∧ (cs_send E cs msg binary compression c1.2).1 = Ok tt
  ∧ sends (trace (cs_send E cs msg binary compression c1.2).2) =
      sends (trace c1.2)
  ∧ cs_sendPong E cs c1.2 = (Ok tt, c1.2)
  ∧ closedSockets c2.2 = closedSockets c1.2
  ∧ (c1.1 = Ok tt →
     readyState c1.2 ws ≠ OPEN
     ∧ (cs_checkState E cs c1.2).1 ≠ Ok true
     ∧ readyState c2.2 ws = readyState c1.2 ws).
Proof.
  intros Hws. cbv zeta.
  assert (Hflag : cs_id cs ∈ closedSockets (cs_close E cs s).2).
  { rewrite (cs_close_spec E s cs ws Hws). cbv zeta.
    destruct (ws_close E (trace s) ws None None); simpl_state;
      apply elem_of_union; left; now apply elem_of_singleton. }
  set (s1 := (cs_close E cs s).2) in *.
  assert (Hdead : dead s1 ws cs = true) by (apply dead_true; now right).
  split; [exact Hflag |].
  rewrite (cs_send_dead E s1 cs ws msg binary compression Hws Hdead).
  simpl_state.
  split; [reflexivity |].
  split; [rewrite sends_app; cbn; now rewrite app_nil_r |].
  split.
  { unfold cs_sendPong. rewrite Hws. autounfold with handler. now rewrite Hdead. }
  split.
  - rewrite (cs_close_spec E s1 cs ws Hws). cbv zeta.
    destruct (ws_close E (trace s1) ws None None); simpl_state.
    all: apply set_eq; intros x; rewrite elem_of_union, elem_of_singleton.
    all: split; [intros [-> | Hx]; [exact Hflag | exact Hx] | now right].
  - intros Hok.
    assert (Hrs : readyState s1 ws = closing (readyState s ws)).
    { subst s1. revert Hok. rewrite (cs_close_spec E s cs ws Hws). cbv zeta.
      destruct (ws_close E (trace s) ws None None); [discriminate |].
      intros _. simpl_state. rewrite readyState_set_trace.
      apply readyState_closed. }
    split; [rewrite Hrs; apply closing_not_OPEN |].
    split.
    + rewrite (cs_checkState_spec E s1 cs ws Hws), Hrs.
      destruct (readyState s ws); cbn;
        destruct (ws_close E (trace s1) ws None None); discriminate.
    + rewrite (cs_close_spec E s1 cs ws Hws). cbv zeta.
      destruct (ws_close E (trace s1) ws None None); simpl_state.
      * reflexivity.
      * rewrite readyState_set_trace, readyState_closed.
        rewrite Hrs. apply closing_closing.
Qed.

Lemma close_then_use_witness :
  let c1 := cs_close Demo.env Demo.socket1 Demo.established in
  c1.1 = Ok tt
  ∧ readyState c1.2 1 ≠ OPEN
  ∧ cs_sendPong Demo.env Demo.socket1 c1.2 = (Ok tt, c1.2).
Proof.
  cbv zeta.
  destruct (close_then_use Demo.env Demo.established Demo.socket1 1 (VStr "late")
              true false eq_refl) as (_ & _ & _ & Hpong & _ & Hclosed).
  split; [reflexivity |].
  split; [apply Hclosed; reflexivity | exact Hpong].
Defined.

(** X5.  The socket of [createDummyClientSocket] discards everything and
    never touches a transport: [send] and [sendPong] do nothing, [readRequest]
    answers the empty object for every buffer (the probe included), [close]
    only sets the flag, and [checkState] answers true until [close] and false
    after it; none of the calls adds an event to the trace. *)
Theorem dummy_socket_discards (E : Env) (s : State) (msg : Value)
  (binary compression : bool) (buffer : string) :
  let cs := ephemeralSocket s in
  let s0 := set_closedSockets (closedSockets s ∖ {[nextId s]})
              (set_nextId (S (nextId s)) s) in
  let s1 := set_closedSockets ({[nextId s]} ∪ closedSockets s0) s0 in
  createDummyClientSocket s = (Ok cs, s0)
  ∧ cs_checkState E cs s0 = (Ok true, s0)
  ∧ cs_send E cs msg binary compression s0 = (Ok tt, s0)
  ∧ cs_sendPong E cs s0 = (Ok tt, s0)
  ∧ cs_readRequest E cs buffer binary s0 = (Ok emptyRequest, s0)
  ∧ cs_close E cs s0 = (Ok tt, s1)
  ∧ cs_checkState E cs s1 = (Ok false, s1)
  ∧ trace s1 = trace s ∧ readyStates s1 = readyStates s.
Proof.
  cbv zeta. unfold ephemeralSocket.
  repeat split.
  - unfold cs_checkState. cbn [cs_ws]. autounfold with handler.
    unfold isClosed. simpl_state.
    rewrite bool_decide_eq_false_2; [reflexivity |].
    intros Hin. apply elem_of_difference in Hin as [_ Hnot].
    apply Hnot. now apply elem_of_singleton.
  - unfold cs_checkState. cbn [cs_ws]. autounfold with handler.
    unfold isClosed. simpl_state.
    rewrite bool_decide_eq_true_2; [reflexivity |].
    apply elem_of_union. left. now apply elem_of_singleton.
Qed.

(** ** A frame on an established connection *)

(** X6.  On an established connection, a frame that is not the probe and
    that the codec decodes is dispatched exactly once: the handler reports
    the buffer's length, decodes in the session's binary mode, hands the
    request to [sessionManager.handleRequest] together with the actor's own
    workspace binding, registers the completion log and keeps the promise
    alive with [waitUntil], however that promise settles later.  Text and
    binary frames are treated alike, and nothing of the state changes but the
    trace. *)
Theorem frame_is_dispatched_once (E : Env) (s : State) (ws : nat)
  (message : Frame) (d : WebsocketData) (cs : ConnectionSocket) (w : nat)
  (sess : Session) (workspaceId : string) (rq : RpcRequest) (p : Settles) :
  let buffer := Buffer_from message in
  let decoded := trace s ++ [EvMeasure "receive-data" (String.length buffer);
                             EvRpcRead buffer (binaryMode sess)] in
  sessions s !! ws = Some d → connectionSocket d = Some cs →
  cs_ws cs = Some w → wd_session d = CRSession (Some sess) workspaceId →
  buffer ≠ pingConst E →
  rpc_readRequest E buffer (binaryMode sess) = Ok rq →
  sm_handleRequest E decoded sess cs rq (workspace s) = Ok p →
  webSocketMessage E ws message s =
    (Ok tt,
     set_trace (decoded ++
       [EvHandleRequest sess cs rq (workspace s);
        EvFinallyLog "handle-request" rq;
        EvWaitUntil]) s).
Proof.
  cbv zeta. intros Hd Hcs Hw Hsess Hne Hdec Hdisp.
  unfold webSocketMessage, doSessionOp, try_catch, bind, get, measure, emit,
    modify.
  simpl_state. rewrite Hd, Hcs, Hsess.
  rewrite (cs_readRequest_decodes E cs w _ _ Hw Hne).
  autounfold with handler. simpl_state. rewrite Hdec. simpl_state.
  rewrite <- !app_assoc. cbn [app]. rewrite Hdisp.
  unfold set_trace. simpl_state. now rewrite <- !app_assoc.
Qed.

Lemma frame_is_dispatched_once_witness :
  dispatches (trace (webSocketMessage Demo.env 1 (Text "findAll")
                       Demo.established).2) =
    [{| method := "findAll"; params := []; id := VNum 1; time := None |}].
Proof.
  assert (Hentry : sessions Demo.established !! 1 = Some Demo.entry1)
    by (vm_compute; reflexivity).
  rewrite (frame_is_dispatched_once Demo.env Demo.established 1 (Text "findAll")
             Demo.entry1 Demo.socket1 1 Demo.session1 "w1"
             {| method := "findAll"; params := []; id := VNum 1; time := None |}
             Fulfils
             Hentry eq_refl eq_refl eq_refl ltac:(discriminate) eq_refl eq_refl).
  vm_compute. reflexivity.
Defined.

(** ** Admission *)

(** Whatever admission and the transport do, [handleSession] has accepted the
    websocket, returns [true] or throws, keeps the workspace, and changes the
    registry only by storing the entry of a session that was established. *)
Lemma handleSession_cases (E : Env) (ws : nat) (request : Request) (t : Token)
  (rawToken : string) (sid : option string) (s : State) :
  let r := handleSession E ws request t rawToken sid s in
  webSockets r.2 = webSockets s ++ [ws]
  ∧ match admission E s ws request t rawToken sid with
    | Ok (CRSession (Some sess) w) =>
        r.1 = Ok true
        ∧ sessions r.2 = <[ws := entryFor s ws request t rawToken sess w]> (sessions s)
        ∧ trace r.2 = trace s ++
            [EvLog "New session attempt"; EvAccept ws;
             EvAddSession (newSocket s ws request t) t rawToken sid;
             EvLog "Session established successfully:"]
        ∧ readyStates r.2 = readyStates s
    | Ok (CRUpgrade _) =>
        (r.1 = Ok true ∨ ∃ e, r.1 = Throw e) ∧ sessions r.2 = sessions s
    | _ => (∃ e, r.1 = Throw e) ∧ sessions r.2 = sessions s
    end.
Proof.
  cbv zeta. unfold admission, newSocket, entryFor.
  destruct (handleSession E ws request t rawToken sid s) as [o s'] eqn:Hrun.
  unfold handleSession in Hrun. run_in Hrun.
  repeat (split_match Hrun; run_in Hrun).
  all: injection Hrun as <- <-; simpl_state.
  all: split; [reflexivity |].
  all: repeat split; eauto.
Qed.

(** X7.  When admission answers with an established session,
    [handleSession] returns [true] having accepted the websocket and stored,
    under it, the entry holding the new connection socket, the token, the raw
    token and the session; every other entry is as before, and nothing was
    written to or closed on the transport.  A [handleClose] of that websocket
    then makes one cleanup call, for that socket, and, when the websocket had
    no entry before, gives back the registry the connection found. *)
Theorem session_is_registered (E : Env) (s : State) (ws : nat)
  (request : Request) (t : Token) (rawToken : string) (sid : option string)
  (sess : Session) (workspaceId : string) (code : Z) (reason : option string) :
  admission E s ws request t rawToken sid = Ok (CRSession (Some sess) workspaceId) →
  let r := handleSession E ws request t rawToken sid s in
  let entry := entryFor s ws request t rawToken sess workspaceId in
  let c := handleClose E ws code reason r.2 in
  r.1 = Ok true
  ∧ sessions r.2 !! ws = Some entry
  ∧ (∀ ws', ws' ≠ ws → sessions r.2 !! ws' = sessions s !! ws')
  ∧ ws ∈ webSockets r.2
  ∧ sends (trace r.2) = sends (trace s)
  ∧ closeCalls (trace r.2) = closeCalls (trace s)
  ∧ cleanups (trace c.2) = cleanups (trace s) ++ [Some (newSocket s ws request t)]
  ∧ (sessions s !! ws = None → sessions c.2 = sessions s).
Proof.
  intros Hadm. cbv zeta.
  destruct (handleSession_cases E ws request t rawToken sid s) as (Hacc & Hcase).
  rewrite Hadm in Hcase. destruct Hcase as (Hok & Hreg & Htr & _).
  destruct (handleClose_spec E ws code reason
              (handleSession E ws request t rawToken sid s).2)
    as (evs & Htr' & _ & _ & Hcu & _ & Hdel & _).
  repeat split.
  - exact Hok.
  - rewrite Hreg. apply lookup_insert_eq.
  - intros ws' Hne. rewrite Hreg. now apply lookup_insert_ne.
  - rewrite Hacc. apply elem_of_app. right. now apply list_elem_of_singleton.
  - rewrite Htr, sends_app. cbn. now rewrite app_nil_r.
  - rewrite Htr, closeCalls_app. cbn. now rewrite app_nil_r.
  - rewrite Htr', cleanups_app, Hcu, Htr, cleanups_app, Hreg, lookup_insert_eq.
    cbn. now rewrite app_nil_r.
  - intros Hfree. rewrite Hdel, Hreg. now apply delete_insert_id.
Qed.

Lemma session_is_registered_witness :
  let r := handleSession Demo.env 7 (Demo.request "/w1") (Demo.tokenFor "w1")
             "w1" None Demo.established in
  r.1 = Ok true
  ∧ sessions (handleClose Demo.env 7 1000 None r.2).2 = sessions Demo.established.
Proof.
  cbv zeta.
  destruct (session_is_registered Demo.env Demo.established 7 (Demo.request "/w1")
              (Demo.tokenFor "w1") "w1" None Demo.session1 "w1" 1000 None eq_refl)
    as (Hok & _ & _ & _ & _ & _ & _ & Hback).
  split; [exact Hok |].
  apply Hback. vm_compute. reflexivity.
Defined.

(** X8.  When admission fails, [handleSession] throws and stores nothing,
    although the websocket was already accepted.  With a transport that
    takes the closes: for an error answer the caller gets that error, and the
    websocket was closed with 4003 in the branch, once more without a code
    when the answer is marked [terminate], and again with 4003 in the
    [catch]; for a rejected admission call the caller gets the rejection and
    the one 4003 close of the [catch]. *)
Theorem rejected_session_is_closed (E : Env) (s : State) (ws : nat)
  (request : Request) (t : Token) (rawToken : string) (sid : option string) :
  let r := handleSession E ws request t rawToken sid s in
  (∀ error terminate,
     admission E s ws request t rawToken sid = Ok (CRError error terminate) →
     (∃ e, r.1 = Throw e) ∧ sessions r.2 = sessions s ∧ ws ∈ webSockets r.2
     ∧ (closes_quietly E ws →
        r.1 = Throw error
        ∧ closeCalls (trace r.2) =
            closeCalls (trace s) ++ [failedClose ws]
            ++ (if terminate is Some true then [(ws, None, None)] else [])
            ++ [failedClose ws]))
  ∧ (∀ error,
       admission E s ws request t rawToken sid = Throw error →
       (∃ e, r.1 = Throw e) ∧ sessions r.2 = sessions s ∧ ws ∈ webSockets r.2
       ∧ (closes_quietly E ws →
          r.1 = Throw error
          ∧ closeCalls (trace r.2) = closeCalls (trace s) ++ [failedClose ws])).
Proof.
  cbv zeta.
  destruct (handleSession_cases E ws request t rawToken sid s) as (Hacc & Hcase).
  assert (Hin : ws ∈ webSockets (handleSession E ws request t rawToken sid s).2)
    by (rewrite Hacc; apply elem_of_app; right; now apply list_elem_of_singleton).
  split.
  - intros error terminate Hadm. rewrite Hadm in Hcase.
    destruct Hcase as (Hthrow & Hreg).
    split; [exact Hthrow |]. split; [exact Hreg |]. split; [exact Hin |].
    intros Hquiet. clear Hthrow Hreg Hin Hacc.
    unfold admission, newSocket in Hadm.
    destruct (handleSession E ws request t rawToken sid s) as [o s'] eqn:Hrun.
    unfold handleSession in Hrun. run_in Hrun. rewrite Hadm in Hrun.
    run_in Hrun. rewrite !Hquiet in Hrun. run_in Hrun.
    destruct terminate as [[|] |]; run_in Hrun; rewrite ?Hquiet in Hrun;
      run_in Hrun; rewrite ?Hquiet in Hrun; run_in Hrun;
      injection Hrun as <- <-; simpl_state;
      (split; [reflexivity |]);
      rewrite closeCalls_app; reflexivity.
  - intros error Hadm. rewrite Hadm in Hcase.
    destruct Hcase as (Hthrow & Hreg).
    split; [exact Hthrow |]. split; [exact Hreg |]. split; [exact Hin |].
    intros Hquiet. clear Hthrow Hreg Hin Hacc.
    unfold admission, newSocket in Hadm.
    destruct (handleSession E ws request t rawToken sid s) as [o s'] eqn:Hrun.
    unfold handleSession in Hrun. run_in Hrun. rewrite Hadm in Hrun.
    run_in Hrun. rewrite !Hquiet in Hrun. run_in Hrun.
    injection Hrun as <- <-; simpl_state.
    split; [reflexivity |]. rewrite closeCalls_app. reflexivity.
Qed.

Lemma rejected_session_is_closed_witness :
  let r := handleSession Demo.rejecting 1 (Demo.request "/w1")
             (Demo.tokenFor "w1") "w1" None (afterPair Demo.start) in
  r.1 = Throw (Error "Forbidden")
  ∧ closeCalls (trace r.2) = [failedClose 1; (1, None, None); failedClose 1]
  ∧ sessions r.2 = ∅.
Proof.
  cbv zeta.
  destruct (rejected_session_is_closed Demo.rejecting (afterPair Demo.start) 1
              (Demo.request "/w1") (Demo.tokenFor "w1") "w1" None)
    as (Herror & _).
  destruct (Herror (Error "Forbidden") (Some true) eq_refl)
    as (_ & Hreg & _ & Hquiet).
  destruct Hquiet as (Hthrow & Hcalls); [intros h c r; reflexivity |].
  split; [exact Hthrow |].
  split; [rewrite Hcalls; reflexivity | rewrite Hreg; reflexivity].
Defined.

(** ** The upgrade endpoint *)

(** [fetch] on a request whose URL parses and whose token decodes: the
    response follows what [handleSession] does on the server end of a new
    pair, in the state with the workspace bound. *)
Lemma fetch_spec (E : Env) (request : Request) (s : State) (u : URL) (t : Token) :
  parseURL E (url request) = Some u →
  decodeToken E (substring1 (pathname u)) = Ok t →
  fetch E request s =
    match handleSession E (S (nextId s)) request t (substring1 (pathname u))
            (searchParams_sessionId u) (handshaken s t) with
    | (Ok true, s') => (Ok (switching (nextId s)), s')
    | (Ok false, s') => (Ok notFound, s')
    | (Throw e, s') =>
        (Ok notFound,
         set_trace (trace s' ++ [EvError "Failed to handle request" (Some e)]) s')
    end.
Proof.
  intros Hurl Htoken. unfold fetch, handshaken, afterPair.
  unfold new_WebSocketPair, bind_workspace, decodeToken_op.
  rewrite Hurl, Htoken.
  autounfold with handler. simpl_state.
  destruct (String.eqb (workspace s) "") eqn:Hw; simpl_state.
  all: unfold set_workspace, set_readyStates, set_nextId; simpl_state.
  all: match goal with
       | |- context [handleSession ?env ?ws ?rq ?tk ?raw ?sid ?st] =>
           destruct (handleSession env ws rq tk raw sid st) as [[[|] | e] s3]
       end; reflexivity.
Qed.

(** X9.  [fetch] on a request whose URL parses never raises: it answers 101
    with the client end of the new pair, or 404 with no websocket.  A token
    that does not decode gives 404 before anything is accepted or asked of
    admission: only the error line is added to the trace, and the workspace
    and the registry are as before.  Whenever the answer is 404 the registry
    is as before, and an entry the registry gains is stored under the server
    end of the pair. *)
Theorem fetch_responses (E : Env) (s : State) (request : Request) (u : URL) :
  parseURL E (url request) = Some u →
  let r := fetch E request s in
  (r.1 = Ok (switching (nextId s)) ∨ r.1 = Ok notFound)
  ∧ (r.1 = Ok notFound → sessions r.2 = sessions s)
  ∧ (∀ ws, ws ≠ S (nextId s) → sessions r.2 !! ws = sessions s !! ws)
  ∧ (∀ e, decodeToken E (substring1 (pathname u)) = Throw e →
          r.1 = Ok notFound
          ∧ trace r.2 = trace s ++ [EvError "Failed to handle request" (Some e)]
          ∧ webSockets r.2 = webSockets s
          ∧ workspace r.2 = workspace s).
Proof.
  intros Hurl. cbv zeta.
  destruct (decodeToken E (substring1 (pathname u))) as [t | e0] eqn:Htoken.
  - rewrite (fetch_spec E request s u t Hurl Htoken).
    pose proof (handleSession_cases E (S (nextId s)) request t
                  (substring1 (pathname u)) (searchParams_sessionId u)
                  (handshaken s t)) as (_ & Hcase).
    assert (Hsess : sessions (handshaken s t) = sessions s)
      by (unfold handshaken; now destruct (String.eqb _ _)).
    assert (Hnext : ∀ m, <[S (nextId s) := m]> (sessions s) !! S (nextId s) = Some m)
      by (intros m; apply lookup_insert_eq).
    destruct (handleSession E (S (nextId s)) request t (substring1 (pathname u))
                (searchParams_sessionId u) (handshaken s t)) as [[[|] | e] s3];
      simpl_state.
    all: destruct (admission E (handshaken s t) (S (nextId s)) request t
                     (substring1 (pathname u)) (searchParams_sessionId u))
           as [[err term | info | [sess |] w] | err].
    all: repeat match type of Hcase with
                | _ ∧ _ => destruct Hcase as [? Hcase]
                | ∃ _, _ => destruct Hcase as [? Hcase]
                | _ ∨ _ => destruct Hcase as [Hcase | Hcase]
                end.
    all: try discriminate.
    all: rewrite ?Hcase, ?Hsess in *.
    all: repeat split; auto; try discriminate.
    all: try (intros ws Hne; match goal with
              | H : sessions _ = _ |- _ => rewrite H, ?Hsess
              end; now rewrite ?lookup_insert_ne by congruence).
    all: try (intros; match goal with
              | H : sessions _ = _ |- _ => rewrite H, ?Hsess
              end; reflexivity).
  - unfold fetch, new_WebSocketPair, decodeToken_op. rewrite Hurl, Htoken.
    autounfold with handler. simpl_state.
    repeat split; auto.
    match goal with H : Throw _ = Throw _ |- _ => injection H as <- end.
    reflexivity.
Qed.

Lemma fetch_responses_witness :
  (fetch Demo.env (Demo.request "/") Demo.established).1 = Ok notFound
  ∧ sessions (fetch Demo.env (Demo.request "/") Demo.established).2 =
      sessions Demo.established
  ∧ (fetch Demo.env (Demo.request "/w1") Demo.established).1 = Ok (switching 3).
Proof.
  destruct (fetch_responses Demo.env Demo.established (Demo.request "/")
              {| pathname := "/"; searchParams_sessionId := None |} eq_refl)
    as (_ & Hsame & _ & Hbad).
  destruct (Hbad (Error "Invalid token") eq_refl) as (H404 & _).
  split; [exact H404 |].
  split; [exact (Hsame H404) |].
  vm_compute. reflexivity.
Defined.


(** ** The registry over the actor's life *)

Ltac same_sessions_paths Hrun :=
  run_in Hrun; repeat (split_match Hrun; run_in Hrun);
  injection Hrun as <- <-; reflexivity.

Lemma bridge_same_sessions (E : Env) (s : State) (raw w c : string)
  (q o : option Value) (t : Value) :
  sessions (findAll E raw w c q o s).2 = sessions s
  ∧ sessions (tx E raw w t s).2 = sessions s
  ∧ sessions (getModel E raw s).2 = sessions s
  ∧ sessions (getAccount E raw s).2 = sessions s.
Proof.
  split; [| split; [| split]].
  - destruct (findAll E raw w c q o s) as [r s'] eqn:Hrun.
    unfold findAll, makeRpcSession in Hrun. same_sessions_paths Hrun.
  - destruct (tx E raw w t s) as [r s'] eqn:Hrun.
    unfold tx, makeRpcSession in Hrun. same_sessions_paths Hrun.
  - destruct (getModel E raw s) as [r s'] eqn:Hrun.
    unfold getModel, getModel_load, makeRpcSession in Hrun.
    same_sessions_paths Hrun.
  - destruct (getAccount E raw s) as [r s'] eqn:Hrun.
    unfold getAccount, makeRpcSession in Hrun. same_sessions_paths Hrun.
Qed.

Lemma socketCall_same_sessions (E : Env) (cs : ConnectionSocket)
  (call : SocketCall) (s : State) :
  sessions (socketCall E cs call s) = sessions s.
Proof.
  destruct call; cbn [socketCall].
  - destruct (cs_send E cs msg binary compression s) as [r s'] eqn:Hrun.
    unfold cs_send in Hrun. destruct (cs_ws cs); same_sessions_paths Hrun.
  - destruct (cs_sendPong E cs s) as [r s'] eqn:Hrun.
    unfold cs_sendPong in Hrun. destruct (cs_ws cs); same_sessions_paths Hrun.
  - destruct (cs_close E cs s) as [r s'] eqn:Hrun.
    unfold cs_close in Hrun. destruct (cs_ws cs); same_sessions_paths Hrun.
  - destruct (cs_checkState E cs s) as [r s'] eqn:Hrun.
    unfold cs_checkState in Hrun. destruct (cs_ws cs); same_sessions_paths Hrun.
  - destruct (cs_readRequest E cs buffer binary s) as [r s'] eqn:Hrun.
    unfold cs_readRequest in Hrun. destruct (cs_ws cs); same_sessions_paths Hrun.
Qed.

Lemma registry_grows_wf_same (s s' : State) :
  sessions s' = sessions s → registry_grows_wf s s'.
Proof. intros Heq ws d Hd. left. now rewrite <- Heq. Qed.

Lemma registry_grows_wf_shrink (s s' : State) :
  (∀ ws d, sessions s' !! ws = Some d → sessions s !! ws = Some d) →
  registry_grows_wf s s'.
Proof. intros Hshr ws d Hd. left. now apply Hshr. Qed.

Lemma handleSession_grows_wf (E : Env) (ws : nat) (request : Request)
  (t : Token) (raw : string) (sid : option string) (s : State) :
  registry_grows_wf s (handleSession E ws request t raw sid s).2.
Proof.
  destruct (handleSession_cases E ws request t raw sid s) as (_ & Hcase).
  destruct (admission E s ws request t raw sid)
    as [[err term | info | [sess |] w] | err].
  all: try (apply registry_grows_wf_same; tauto).
  destruct Hcase as (_ & Hreg & _). intros ws' d. rewrite Hreg.
  destruct (decide (ws' = ws)) as [-> | Hne].
  - rewrite lookup_insert_eq. intros [= <-]. right.
    exists (newSocket s ws request t), sess, w. repeat split.
  - rewrite lookup_insert_ne by congruence. now left.
Qed.

Lemma step_grows_wf (E : Env) (op : Op) (s : State) :
  registry_grows_wf s (step E op s).
Proof.
  destruct op; cbn [step].
  - destruct (parseURL E (url request)) as [u |] eqn:Hurl.
    + destruct (decodeToken E (substring1 (pathname u))) as [t | e] eqn:Htoken.
      * rewrite (fetch_spec E request s u t Hurl Htoken).
        pose proof (handleSession_grows_wf E (S (nextId s)) request t
                      (substring1 (pathname u)) (searchParams_sessionId u)
                      (handshaken s t)) as Hgrow.
        assert (Hsess : sessions (handshaken s t) = sessions s)
          by (unfold handshaken; now destruct (String.eqb _ _)).
        unfold registry_grows_wf in *. rewrite Hsess in Hgrow.
        destruct (handleSession E (S (nextId s)) request t
                    (substring1 (pathname u)) (searchParams_sessionId u)
                    (handshaken s t)) as [[[|] | e] s3]; exact Hgrow.
      * apply registry_grows_wf_same.
        unfold fetch, new_WebSocketPair, decodeToken_op. rewrite Hurl, Htoken.
        reflexivity.
    + apply registry_grows_wf_same.
      unfold fetch, new_WebSocketPair. rewrite Hurl. reflexivity.
  - apply registry_grows_wf_same. unfold runtime_receive, bind, get, emit, modify.
    destruct (webSocketMessage_frame E s ws message) as (_ & evs & Hst & _).
    destruct (autoResponse s) as [[rq rs] |]; [destruct message as [m | m] |];
      try (destruct (String.eqb m rq)); try (rewrite Hst); reflexivity.
  - apply registry_grows_wf_same.
    destruct (webSocketMessage_frame E s ws message) as (_ & evs & Hst & _).
    now rewrite Hst.
  - apply registry_grows_wf_shrink. intros w d.
    unfold webSocketError, bind, console_error, emit, modify. simpl_state.
    destruct (handleClose_spec E ws 1011 (Some "error")
                (set_trace (trace s ++ [EvError "WebSocket error:" (Some error)]) s))
      as (evs & _ & _ & _ & _ & _ & Hdel & _).
    rewrite Hdel. simpl_state. intros Hw. apply lookup_delete_Some in Hw. tauto.
  - now apply registry_grows_wf_same.
  - apply handleSession_grows_wf.
  - apply registry_grows_wf_shrink.
    unfold broadcastMessage, bind, console_log, emit, modify, getWebSockets, get.
    simpl_state.
    match goal with
    | |- context [Promise_all_map ?f ?l ?st] =>
        destruct (Promise_all_map_sendMessage E (Binary message) l st)
          as (evs & _ & _ & _ & _ & _ & _ & _ & Hshr & _)
    end.
    exact Hshr.
  - apply registry_grows_wf_shrink.
    destruct (sendMessage_spec E ws message s)
      as (evs & _ & _ & _ & _ & _ & _ & _ & Hshr & _).
    exact Hshr.
  - apply registry_grows_wf_shrink. intros w d.
    destruct (handleClose_spec E ws code reason s)
      as (evs & _ & _ & _ & _ & _ & Hdel & _).
    rewrite Hdel. intros Hw. apply lookup_delete_Some in Hw. tauto.
  - apply registry_grows_wf_same.
    apply (bridge_same_sessions E s rawToken workspaceId _class query options VNull).
  - apply registry_grows_wf_same.
    apply (bridge_same_sessions E s rawToken workspaceId "" None None t).
  - apply registry_grows_wf_same.
    apply (bridge_same_sessions E s rawToken "" "" None None VNull).
  - apply registry_grows_wf_same.
    apply (bridge_same_sessions E s rawToken "" "" None None VNull).
  - apply registry_grows_wf_same. apply socketCall_same_sessions.
  - apply registry_grows_wf_same.
    unfold handleRequest_finally. autounfold with handler. simpl_state.
    now destruct r.
Qed.

(** X10.  From its construction on, whatever operations run, every entry of
    the registry is one [handleSession] stored: it holds a connection socket
    that writes to the websocket the entry is filed under, and an established
    session.  So the handlers that look an entry up never meet one without a
    socket or without a session. *)
Theorem registry_entries_are_established (E : Env) (host : State)
  (ops : list Op) :
  ∀ ws d,
    sessions (run E ops (constructor E host)) !! ws = Some d →
    ∃ cs sess workspaceId,
      connectionSocket d = Some cs ∧ cs_ws cs = Some ws
      ∧ wd_session d = CRSession (Some sess) workspaceId.
Proof.
  assert (Hinv : ∀ l s, registry_wf s → registry_wf (run E l s)).
  { induction l as [| op l IH]; intros s Hs; cbn; [exact Hs |].
    apply IH. intros ws d Hd.
    destruct (step_grows_wf E op s ws d Hd) as [Hold | Hnew]; [| exact Hnew].
    now apply Hs. }
  apply Hinv. intros ws d Hd. cbn in Hd. now rewrite lookup_empty in Hd.
Qed.

Lemma registry_entries_are_established_witness :
  ∃ cs sess workspaceId,
    connectionSocket Demo.entry1 = Some cs ∧ cs_ws cs = Some 1
    ∧ wd_session Demo.entry1 = CRSession (Some sess) workspaceId.
Proof.
  apply (registry_entries_are_established Demo.env Demo.host
           [OpFetch (Demo.request "/w1"); OpAlarm] 1 Demo.entry1).
  vm_compute. reflexivity.
Defined.

(** ** The bridge, continued *)

Lemma createDummyClientSocket_bind {A} (k : ConnectionSocket -> M A) (s : State) :
  bind createDummyClientSocket k s =
    k (ephemeralSocket s)
      (set_closedSockets (closedSockets s ∖ {[nextId s]})
         (set_nextId (S (nextId s)) s)).
Proof. reflexivity. Qed.

Lemma try_finally_close (E : Env) {A} (body : M A) (cs : option ConnectionSocket)
  (s : State) :
  try_finally body (sessionManager_close E cs) s =
    (released' (body s).1 (sm_close E (trace (body s).2) cs (workspace (body s).2)),
     set_trace (trace (body s).2 ++ [EvSmClose cs (workspace (body s).2)])
       (body s).2).
Proof.
  unfold try_finally, sessionManager_close, released'.
  destruct (body s) as [r s2]. simpl_state.
  now destruct (sm_close E (trace s2) cs (workspace s2)).
Qed.


(** X12.  [makeRpcSession] turns every admission answer that is not an
    established session into an error of its own: the answer's error, "Workspace
    is upgrading", or "No session"; a token that does not decode fails before
    admission is asked.  The workspace is bound only after admission
    succeeded, so a failed bridge call leaves the binding, and the registry,
    as they were. *)
Theorem makeRpcSession_failure_modes (E : Env) (s : State) (rawToken : string)
  (cs : ConnectionSocket) :
  let r := makeRpcSession E rawToken cs s in
  (∀ e, decodeToken E rawToken = Throw e → r = (Throw e, s))
  ∧ (∀ t, decodeToken E rawToken = Ok t →
       r.1 = match sm_addSession E (trace s) cs t rawToken
                     (Some (genId E (nextId s))) with
             | Throw e | Ok (CRError e _) => Throw e
             | Ok (CRUpgrade _) => Throw (Error "Workspace is upgrading")
             | Ok (CRSession None _) => Throw (Error "No session")
             | Ok (CRSession (Some sess) _) => Ok sess
             end)
  ∧ (∀ e, r.1 = Throw e → workspace r.2 = workspace s)
  ∧ sessions r.2 = sessions s.
Proof.
  cbv zeta.
  destruct (makeRpcSession E rawToken cs s) as [o s'] eqn:Hrun.
  unfold makeRpcSession in Hrun. run_in Hrun.
  repeat (split_match Hrun; run_in Hrun).
  all: injection Hrun as <- <-; simpl_state.
  all: repeat split; try reflexivity; try discriminate.
  all: try (intros ? Hx; first [discriminate Hx | injection Hx as <-; reflexivity]).
  all: intros ? Hx; injection Hx as <-;
    match goal with
    | H : sm_addSession _ _ _ _ _ _ = _ |- _ => rewrite H
    end; reflexivity.
Qed.

Lemma makeRpcSession_failure_modes_witness :
  let r := makeRpcSession Demo.upgrading "w9" (ephemeralSocket Demo.start)
             Demo.start in
  r.1 = Throw (Error "Workspace is upgrading") ∧ workspace r.2 = "".
Proof.
  cbv zeta.
  destruct (makeRpcSession_failure_modes Demo.upgrading Demo.start "w9"
              (ephemeralSocket Demo.start)) as (_ & Hmode & Hkeep & _).
  assert (Hthrow : (makeRpcSession Demo.upgrading "w9"
                      (ephemeralSocket Demo.start) Demo.start).1 =
                   Throw (Error "Workspace is upgrading"))
    by (apply (Hmode (Demo.tokenFor "w9")); reflexivity).
  split; [exact Hthrow |].
  rewrite (Hkeep _ Hthrow). reflexivity.
Defined.

(** ** The pipeline factory *)

(** X13.  The pipeline factory hands out the pipeline only after a probe of
    the database went through: it answers with the built pipeline exactly when
    the build, [getClient] and the [select now()] query all succeeded.  The
    database client it took is released by [client.close()] on that path
    alone: when the probe fails the factory rejects, the pipeline already
    built is dropped and the client is left open.  The builder and the probe
    use the same URL, and a failed build never touches the database. *)
Theorem pipelineFactory_probe (env : Factory.Bindings) (a : Factory.Answers) :
  let r := Factory.pipelineFactory env a in
  (∀ p, r.1 = Ok p ↔
        Factory.pipeline a = Ok p ∧ Factory.getClient a = None
        ∧ Factory.select_now a = None)
  ∧ (Factory.ClientClose ∈ r.2 ↔ ∃ p, r.1 = Ok p)
  ∧ (Factory.GetClient ∈ r.2 ↔ ∃ p, Factory.pipeline a = Ok p)
  ∧ (∀ u, Factory.GetDBClient u ∈ r.2 → Factory.CreateServerPipeline u ∈ r.2)
  ∧ ((∃ e, Factory.pipeline a = Throw e) →
     r.2 = [Factory.CreateServerPipeline (Factory.dbUrl env); Factory.RunPipeline]).
Proof.
  cbv zeta. unfold Factory.pipelineFactory.
  destruct (Factory.pipeline a) as [p0 | e0];
    [destruct (Factory.getClient a) as [e1 |];
     [| destruct (Factory.select_now a) as [e2 |]] |]; cbn.
  all: split; [intros p; split;
               [intros [= <-]; auto | intros (Hp & Hg & Hs); congruence] |].
  all: split; [rewrite !elem_of_cons, elem_of_nil; split;
               [intros Hin; first [now eexists | intuition discriminate]
               | intros [p Hp]; first [discriminate Hp | tauto]] |].
  all: split; [rewrite !elem_of_cons, elem_of_nil; split;
               [intros Hin; first [now eexists | intuition discriminate]
               | intros [p Hp]; first [discriminate Hp | tauto]] |].
  all: split; [intros u; rewrite !elem_of_cons, !elem_of_nil;
               intros Hin; left; intuition congruence |].
  all: intros [e He]; first [discriminate He | reflexivity].
Qed.

(** X14.  On an established ephemeral session [findAll], [tx] and
    [getAccount] each make exactly one pipeline call, after waiting for a
    pending pipeline, and their [try / catch] ends with its answer, or with
    its error as [{error: String(e)}].  [findAll] replaces a query or options
    that are missing, [undefined] or [null] by the empty object; [tx] hands
    the transaction over as a one-element array; both first attach the
    session context, [getAccount] does not.  The cleanup call follows at
    once and names the workspace as bound by this call; the bridge returns
    when it returns and raises its error when it throws. *)
Theorem bridge_invokes_pipeline_once (E : Env) (s : State)
  (rawToken workspaceId _class : string) (query options : option Value)
  (t : Value) (token : Token) (sess : Session) (w : string) (p : nat) :
  let cs := ephemeralSocket s in
  let admitted := trace s ++ [EvAddSession cs token rawToken
                                (Some (genId E (S (nextId s))))] in
  let attached := admitted ++ [EvIncludeSessionContext sess p] in
  let q := match query with
           | None | Some VUndefined | Some VNull => VObj []
           | Some given => given
           end in
  let o := match options with
           | None | Some VUndefined | Some VNull => VObj []
           | Some given => given
           end in
  let release := EvSmClose (Some cs) (bound_to s token) in
  let closed h := sm_close E h (Some cs) (bound_to s token) in
  decodeToken E rawToken = Ok token →
  bridgeAdmission E s rawToken token = Ok (CRSession (Some sess) w) →
  resolves sess p →
  includeSessionContext E admitted sess p = None →
  let f := findAll E rawToken workspaceId _class query options s in
  let x := tx E rawToken workspaceId t s in
  let a := getAccount E rawToken s in
  f.1 = released (captured (pipeline_findAll E attached p _class q o))
          (closed (attached ++ [EvFindAll p _class q o]))
  ∧ trace f.2 = attached ++ [EvFindAll p _class q o; release]
  ∧ x.1 = released (captured (pipeline_tx E attached p [t]))
            (closed (attached ++ [EvTx p [t]]))
  ∧ trace x.2 = attached ++ [EvTx p [t]; release]
  ∧ a.1 = released (captured (getRawAccount E admitted sess p))
            (closed (admitted ++ [EvGetRawAccount sess p]))
  ∧ trace a.2 = admitted ++ [EvGetRawAccount sess p; release].
Proof.
  cbv zeta. unfold bridgeAdmission, ephemeralSocket, bound_to, captured, released.
  change (match query with
          | None | Some VUndefined | Some VNull => VObj []
          | Some given => given
          end) with (orEmptyObject query).
  change (match options with
          | None | Some VUndefined | Some VNull => VObj []
          | Some given => given
          end) with (orEmptyObject options).
  intros Htoken Hadm Hres Hctx.
  repeat split.
  all: match goal with
       | |- context [findAll ?e ?r ?wi ?c ?qq ?oo ?st] =>
           destruct (findAll e r wi c qq oo st) as [res s'] eqn:Hrun;
           unfold findAll, makeRpcSession in Hrun;
           generalize dependent (orEmptyObject qq);
           generalize dependent (orEmptyObject oo); intros o0 q0 Hrun
       | |- context [tx ?e ?r ?wi ?tt ?st] =>
           destruct (tx e r wi tt st) as [res s'] eqn:Hrun;
           unfold tx, makeRpcSession in Hrun
       | |- context [getAccount ?e ?r ?st] =>
           destruct (getAccount e r st) as [res s'] eqn:Hrun;
           unfold getAccount, makeRpcSession in Hrun
       end.
  all: run_in Hrun.
  all: rewrite Htoken in Hrun; run_in Hrun.
  all: rewrite Hadm in Hrun; run_in Hrun.
  all: destruct (String.eqb (workspace s) ""); run_in Hrun.
  all: destruct Hres as [Hres | Hres]; rewrite Hres in Hrun; run_in Hrun.
  all: rewrite ?Hctx in Hrun; run_in Hrun.
  all: repeat (split_match Hrun; run_in Hrun); injection Hrun as <- <-;
    simpl_state.
  all: rewrite ?errorValue_text.
  all: rewrite <- ?app_assoc; cbn [app];
    repeat match goal with
           | H : _ = Ok _ |- _ => rewrite H
           | H : _ = Throw _ |- _ => rewrite H
           | H : _ = Some _ |- _ => rewrite H
           | H : _ = None |- _ => rewrite H
           end; reflexivity.
Qed.

Lemma bridge_invokes_pipeline_once_witness :
  (findAll Demo.env "w1" "w1" "core:class:Tx" (Some VNull) None
     Demo.established).1 = Ok (VArr [])
  ∧ trace (findAll Demo.env "w1" "w1" "core:class:Tx" (Some VNull) None
             Demo.established).2 =
      (trace Demo.established ++
       [EvAddSession (ephemeralSocket Demo.established) (Demo.tokenFor "w1") "w1"
          (Some "id")]) ++
      [EvIncludeSessionContext Demo.session1 0] ++
      [EvFindAll 0 "core:class:Tx" (VObj []) (VObj []);
       EvSmClose (Some (ephemeralSocket Demo.established)) "w1"].
Proof.
  destruct (bridge_invokes_pipeline_once Demo.env Demo.established "w1" "w1"
              "core:class:Tx" (Some VNull) None VNull (Demo.tokenFor "w1")
              Demo.session1 "w1" 0 eq_refl eq_refl (or_introl eq_refl) eq_refl)
    as (Hres & Htr & _).
  split; [exact Hres |].
  rewrite Htr. vm_compute. reflexivity.
Defined.

(** ** Closing one connection among many *)

(** X15.  [handleClose] of one websocket touches that connection only: every
    other websocket keeps its registry entry and its ready state, the
    workspace binding and the accepted websockets are as before, and nothing
    is sent or dispatched.  An error of [ws.close] never leaves it: for a
    websocket without an entry it returns and makes no cleanup call, and for
    one with an entry it ends with the cleanup call, returning when that call
    returns and raising only what that call threw. *)
Theorem handleClose_leaves_others (E : Env) (s : State) (ws : nat) (code : Z)
  (reason : option string) :
  let r := handleClose E ws code reason s in
  match sessions s !! ws with
  | None => r.1 = Ok tt
  | Some d =>
      ∃ h, trace r.2 = h ++ [EvSmClose (connectionSocket d) (workspace s)]
           ∧ r.1 = released tt (sm_close E h (connectionSocket d) (workspace s))
  end
  ∧ (∀ ws', ws' ≠ ws →
       sessions r.2 !! ws' = sessions s !! ws'
       ∧ readyState r.2 ws' = readyState s ws')
  ∧ sessions r.2 !! ws = None
  ∧ workspace r.2 = workspace s
  ∧ webSockets r.2 = webSockets s
  ∧ ∃ evs, trace r.2 = trace s ++ evs ∧ sends evs = [] ∧ dispatches evs = []
           ∧ (sessions s !! ws = None → cleanups evs = []).
Proof.
  cbv zeta.
  destruct (handleClose_spec E ws code reason s)
    as (evs & Htr & _ & Hsn & Hcu & Hdi & Hdel & Hwk & Hws & Hrs & Hres).
  split; [exact Hres |].
  split; [intros ws' Hne; split;
          [rewrite Hdel; now apply lookup_delete_ne | now apply Hrs] |].
  split; [rewrite Hdel; apply lookup_delete_eq |].
  split; [exact Hwk |]. split; [exact Hws |].
  exists evs. repeat split; auto. intros Hnone. now rewrite Hnone in Hcu.
Qed.

(** ** The upgrade endpoint, end to end *)

Lemma handshaken_frame (s : State) (t : Token) :
  trace (handshaken s t) = trace s
  ∧ sessions (handshaken s t) = sessions s
  ∧ workspace (handshaken s t) = bound_to s t
  ∧ nextId (handshaken s t) = S (S (nextId s))
  ∧ readyState (handshaken s t) (S (nextId s)) = OPEN
  ∧ readyState (handshaken s t) (nextId s) = OPEN.
Proof.
  unfold handshaken, bound_to, afterPair, readyState.
  destruct (String.eqb (workspace s) ""); simpl_state;
    rewrite lookup_insert_eq, lookup_insert_ne, lookup_insert_eq by lia;
    repeat split.
Qed.

(** On a websocket that is OPEN and whose transport takes the write and the
    close, an upgrading answer ends in one message and the close. *)
Lemma handleSession_upgrade_live (E : Env) (s : State) (ws : nat)
  (request : Request) (t : Token) (rawToken : string) (sid : option string)
  (upgradeInfo : Value) :
  admission E s ws request t rawToken sid = Ok (CRUpgrade upgradeInfo) →
  readyState s ws = OPEN → sends_quietly E ws → closes_quietly E ws →
  let r := handleSession E ws request t rawToken sid s in
  r.1 = Ok true
  ∧ sessions r.2 = sessions s
  ∧ trace r.2 = trace s ++
      [EvLog "New session attempt"; EvAccept ws;
       EvAddSession (newSocket s ws request t) t rawToken sid;
       EvRpcSerialize (upgradingNotice upgradeInfo) false;
       EvMeasure "send-data"
         (frameLength (rpc_serialize E (upgradingNotice upgradeInfo) false));
       EvWsSend ws (rpc_serialize E (upgradingNotice upgradeInfo) false);
       EvWsClose ws None None]
  ∧ readyState r.2 ws = CLOSING.
Proof.
  unfold admission, newSocket, sends_quietly, closes_quietly, upgradingNotice.
  intros Hadm Hopen Hsend Hclose. cbv zeta.
  destruct (handleSession E ws request t rawToken sid s) as [o s'] eqn:Hrun.
  unfold handleSession, upgradingMessage in Hrun. run_in Hrun.
  rewrite Hadm in Hrun. run_in Hrun.
  repeat (split_match Hrun; run_in Hrun).
  all: injection Hrun as <- <-; simpl_state.
  all: try (rewrite Hsend in *; discriminate).
  all: try (rewrite Hclose in *; discriminate).
  - exfalso. unfold dead, isClosed, readyState in *. simpl_state.
    rewrite Hopen in Hcase. cbn in Hcase.
    apply bool_decide_eq_true_1, elem_of_difference in Hcase.
    destruct Hcase as [_ Hnot]. apply Hnot. now apply elem_of_singleton.
  - repeat split.
    unfold readyState in *. simpl_state.
    rewrite lookup_insert_eq. cbn. now rewrite Hopen.
Qed.

(** X16.  A request whose token decodes and whose admission is established
    is answered 101 with the client end of a new pair, while the server end is
    accepted and filed in the registry with the decoded token, the raw token
    taken from the path (without its leading slash) and the session; admission
    was asked with the [sessionId] query parameter; both ends are open, and
    the workspace is the one bound by this request or before it. *)
Theorem fetch_establishes (E : Env) (s : State) (request : Request) (u : URL)
  (t : Token) (sess : Session) (w : string) :
  let rawToken := substring1 (pathname u) in
  let client := nextId s in
  let server := S (nextId s) in
  let s2 := handshaken s t in
  parseURL E (url request) = Some u →
  decodeToken E rawToken = Ok t →
  admission E s2 server request t rawToken (searchParams_sessionId u) =
    Ok (CRSession (Some sess) w) →
  let r := fetch E request s in
  r.1 = Ok (switching client)
  ∧ sessions r.2 !! server = Some (entryFor s2 server request t rawToken sess w)
  ∧ server ∈ webSockets r.2
  ∧ workspace r.2 = bound_to s t
  ∧ readyState r.2 server = OPEN ∧ readyState r.2 client = OPEN
  ∧ trace r.2 = trace s ++
      [EvLog "New session attempt"; EvAccept server;
       EvAddSession (newSocket s2 server request t) t rawToken
         (searchParams_sessionId u);
       EvLog "Session established successfully:"].
Proof.
  cbv zeta. intros Hurl Htoken Hadm.
  rewrite (fetch_spec E request s u t Hurl Htoken).
  destruct (handleSession_cases E (S (nextId s)) request t
              (substring1 (pathname u)) (searchParams_sessionId u)
              (handshaken s t)) as (Hacc & Hcase).
  rewrite Hadm in Hcase. destruct Hcase as (Hok & Hreg & Htr & Hrs).
  pose proof (handleSession_same_workspace E (S (nextId s)) request t
                (substring1 (pathname u)) (searchParams_sessionId u)
                (handshaken s t)) as Hws.
  destruct (handshaken_frame s t) as (Htr0 & _ & Hws0 & _ & Hserver & Hclient).
  destruct (handleSession E (S (nextId s)) request t (substring1 (pathname u))
              (searchParams_sessionId u) (handshaken s t)) as [o s3].
  simpl_state. subst o. simpl_state.
  split; [reflexivity |].
  split; [rewrite Hreg; apply lookup_insert_eq |].
  split; [rewrite Hacc; apply elem_of_app; right;
          now apply list_elem_of_singleton |].
  split; [now rewrite Hws |].
  split; [unfold readyState in *; now rewrite Hrs |].
  split; [unfold readyState in *; now rewrite Hrs |].
  now rewrite Htr, Htr0.
Qed.

Lemma fetch_establishes_witness :
  (fetch Demo.env (Demo.request "/w1") Demo.start).1 = Ok (switching 0)
  ∧ workspace (fetch Demo.env (Demo.request "/w1") Demo.start).2 = "w1"
  ∧ sessions (fetch Demo.env (Demo.request "/w1") Demo.start).2 !! 1 =
      Some Demo.entry1.
Proof.
  destruct (fetch_establishes Demo.env Demo.start (Demo.request "/w1")
              {| pathname := "/w1"; searchParams_sessionId := None |}
              (Demo.tokenFor "w1") Demo.session1 "w1" eq_refl eq_refl eq_refl)
    as (Hok & Hreg & _ & Hws & _).
  split; [exact Hok |]. split; [exact Hws |]. exact Hreg.
Defined.

(** X17.  While the workspace is upgrading, a request whose token decodes is
    still answered 101: on the new pair, whose server end is open, the client
    is sent one message, the text-mode serialisation of
    [{id: -1, result: {state: 'upgrading', stats}}], and the server end is
    closed, given a transport that takes the write and the close.  Nothing is
    filed in the registry. *)
Theorem fetch_upgrading (E : Env) (s : State) (request : Request) (u : URL)
  (t : Token) (upgradeInfo : Value) :
  let rawToken := substring1 (pathname u) in
  let server := S (nextId s) in
  parseURL E (url request) = Some u →
  decodeToken E rawToken = Ok t →
  admission E (handshaken s t) server request t rawToken
    (searchParams_sessionId u) = Ok (CRUpgrade upgradeInfo) →
  sends_quietly E server → closes_quietly E server →
  let r := fetch E request s in
  r.1 = Ok (switching (nextId s))
  ∧ sessions r.2 = sessions s
  ∧ sends (trace r.2) =
      sends (trace s) ++
      [(server,
        rpc_serialize E
          (VObj [("id", VNum (-1));
                 ("result", VObj [("state", VStr "upgrading");
                                  ("stats", upgradeInfo)])])
          false)]
  ∧ closeCalls (trace r.2) = closeCalls (trace s) ++ [(server, None, None)]
  ∧ readyState r.2 server = CLOSING.
Proof.
  cbv zeta. intros Hurl Htoken Hadm Hsend Hclose.
  rewrite (fetch_spec E request s u t Hurl Htoken).
  destruct (handshaken_frame s t) as (Htr0 & Hse0 & _ & _ & Hserver & _).
  destruct (handleSession_upgrade_live E (handshaken s t) (S (nextId s)) request t
              (substring1 (pathname u)) (searchParams_sessionId u) upgradeInfo
              Hadm Hserver Hsend Hclose) as (Hok & Hreg & Htr & Hrs).
  destruct (handleSession E (S (nextId s)) request t (substring1 (pathname u))
              (searchParams_sessionId u) (handshaken s t)) as [o s3].
  simpl_state. subst o. simpl_state. rewrite Htr, Htr0.
  split; [reflexivity |].
  split; [now rewrite Hreg |].
  split; [rewrite sends_app; reflexivity |].
  split; [rewrite closeCalls_app; reflexivity | exact Hrs].
Qed.

Lemma fetch_upgrading_witness :
  let r := fetch Demo.upgrading (Demo.request "/w1") Demo.start in
  r.1 = Ok (switching 0)
  ∧ sends (trace r.2) = [(1, Text "{id:-1,result:{state:upgrading,stats:42}}")]
  ∧ sessions r.2 = ∅.
Proof.
  cbv zeta.
  destruct (fetch_upgrading Demo.upgrading Demo.start (Demo.request "/w1")
              {| pathname := "/w1"; searchParams_sessionId := None |}
              (Demo.tokenFor "w1") (VNum 42) eq_refl eq_refl eq_refl
              (fun h f => eq_refl) (fun h c r => eq_refl))
    as (Hok & Hreg & Hsends & _).
  split; [exact Hok |].
  split; [rewrite Hsends; vm_compute; reflexivity | rewrite Hreg; reflexivity].
Defined.
